(** * IdleRPG: a shallow embedding of the game-state engine (lib/core)

    The development follows the source file of the [IdleRPG] class:
    the transfer handler, profile hydration, the registry upsert, the
    penalty, the reward and the per-tick round, the player enumeration
    and the tick itself.

    Conventions of the embedding.
    - A JavaScript number is a [num]: [NaN] or an exact rational.  The
      arithmetic of the source ([+], [-], [* 0.5], [parseInt]) is exact on
      the values the game produces (integers and their halves, far below
      2^53), which is the range the model speaks about.
    - A JavaScript object with optional members is a record of [option]
      fields; [None] stands for an absent or [undefined] (or [null])
      member.
    - [rpg.state] is the [players] tree, keyed by the unescaped player
      path; JSON pointers are kept as the strings the source builds and
      are resolved the way the patch library resolves them.
    - An [async] method is a computation in the monad [M]: it threads the
      [world] and either returns or throws (a rejected promise).
    - Effects that leave the process ([commit], [emit], [error]) are
      appended to the [journal] of the world.  [rpg.log] only prints and
      is not recorded. *)

From Stdlib Require Import ZArith QArith Qround Qcanon Ascii String List Bool Lia Lqa Sorted.
From stdpp Require Import base option list strings gmap.

Local Open Scope string_scope.
Local Open Scope list_scope.

Module IdleRPG.

(** ** Numbers *)

Inductive num : Type :=
| NaN
| Fin (q : Q).

Definition of_Z (z : Z) : num := Fin (inject_Z z).

(** [!x] is false exactly for the numbers other than [0] and [NaN]. *)
Definition truthy (n : num) : bool :=
  match n with
  | NaN => false
  | Fin q => negb (Qeq_bool q 0)
  end.

Definition nadd (a b : num) : num :=
  match a, b with
  | Fin x, Fin y => Fin (Qred (x + y))
  | _, _ => NaN
  end.

Definition nsub (a b : num) : num :=
  match a, b with
  | Fin x, Fin y => Fin (Qred (x - y))
  | _, _ => NaN
  end.

Definition nmul (a b : num) : num :=
  match a, b with
  | Fin x, Fin y => Fin (Qred (x * y))
  | _, _ => NaN
  end.

(** [a < b]; every comparison with [NaN] is false. *)
Definition nlt (a b : num) : bool :=
  match a, b with
  | Fin x, Fin y => negb (Qle_bool y x)
  | _, _ => false
  end.

(** [a > b]. *)
Definition ngt (a b : num) : bool := nlt b a.

(** [x || d] on a possibly absent number. *)
Definition num_or (x : option num) (d : num) : num :=
  match x with
  | Some n => if truthy n then n else d
  | None => d
  end.

(** [parseInt(x)] of a number: the integer part, towards zero, for the
    numbers that print in positional notation (magnitude from 1e-6 up to
    1e21, and 0).  [NaN] stays [NaN]; [parseInt(-0.5)] is [-0], which is
    not below [0]. *)
Definition parseInt_num (n : num) : num :=
  match n with
  | NaN => NaN
  | Fin q => of_Z (Z.quot (Qnum q) (Z.pos (Qden q)))
  end.

Definition half : num := Fin (1 # 2).

(** ** Strings: [split], [join], JSON-pointer escaping, [parseInt] *)

(** [s.split(sep)] for a one-character separator. *)
Fixpoint split (sep : ascii) (s : string) : list string :=
  match s with
  | EmptyString => [EmptyString]
  | String c r =>
      if Ascii.eqb c sep then EmptyString :: split sep r
      else match split sep r with
           | h :: t => String c h :: t
           | [] => [String c EmptyString]
           end
  end.

(** No character of [s] is [c]. *)
Fixpoint free_of (c : ascii) (s : string) : bool :=
  match s with
  | EmptyString => true
  | String x r => negb (Ascii.eqb x c) && free_of c r
  end.

(** [parts.join(sep)]. *)
Definition join (sep : string) (parts : list string) : string :=
  String.concat sep parts.

(** [s.replace(/c/g, by)]. *)
Fixpoint replace_char (c : ascii) (by_ : string) (s : string) : string :=
  match s with
  | EmptyString => EmptyString
  | String x r =>
      if Ascii.eqb x c then by_ ++ replace_char c by_ r
      else String x (replace_char c by_ r)
  end.

(** [s.replace(/ab/g, by)] for a two-character pattern. *)
Fixpoint replace_pair (a b by_ : ascii) (s : string) : string :=
  match s with
  | EmptyString => EmptyString
  | String x r =>
      match r with
      | String y r' =>
          if Ascii.eqb x a && Ascii.eqb y b then String by_ (replace_pair a b by_ r')
          else String x (replace_pair a b by_ r)
      | EmptyString => String x EmptyString
      end
  end.

(** [pointer.escape]: [~] becomes [~0], then [/] becomes [~1]. *)
Definition escape (s : string) : string :=
  replace_char "/" "~1" (replace_char "~" "~0" s).

(** The patch library's [unescapePathComponent]: [~1] becomes [/], then
    [~0] becomes [~]. *)
Definition unescape (s : string) : string :=
  replace_pair "~" "0" "~" (replace_pair "~" "1" "/" s).

(** The keys a JSON pointer walks through: [path.split('/')] without the
    (empty) piece before the leading slash, each key unescaped. *)
Definition keys_of (path : string) : list string :=
  match split "/" path with
  | _ :: ks => map unescape ks
  | [] => []
  end.

Definition is_space (c : ascii) : bool :=
  let n := nat_of_ascii c in
  (n =? 32)%nat || ((9 <=? n)%nat && (n <=? 13)%nat).

Fixpoint skip_spaces (s : string) : string :=
  match s with
  | String c r => if is_space c then skip_spaces r else s
  | EmptyString => s
  end.

(** The value of a digit in radix up to 16. *)
Definition digit_of (c : ascii) : option Z :=
  let n := Z.of_nat (nat_of_ascii c) in
  if (48 <=? n)%Z && (n <=? 57)%Z then Some (n - 48)%Z
  else if (97 <=? n)%Z && (n <=? 102)%Z then Some (n - 87)%Z
  else if (65 <=? n)%Z && (n <=? 70)%Z then Some (n - 55)%Z
  else None.

(** The longest prefix of digits of the radix, read as an integer; [acc]
    is [None] until a digit was read. *)
Fixpoint read_digits (radix : Z) (s : string) (acc : option Z) : option Z :=
  match s with
  | String c r =>
      match digit_of c with
      | Some d =>
          if (d <? radix)%Z
          then read_digits radix r (Some (radix * default 0%Z acc + d)%Z)
          else acc
      | None => acc
      end
  | EmptyString => acc
  end.

(** [parseInt(s)] of a string, no radix given: leading white space, an
    optional sign, an optional [0x] prefix, then the longest run of
    digits; [NaN] when there is none.  The value is the exact integer the
    digits spell, which is what the source computes below 2^53; from there
    on the source rounds to a double, outside the range the model speaks
    about. *)
Definition parseInt (s : string) : num :=
  let s1 := skip_spaces s in
  let '(neg, s2) :=
    match s1 with
    | String "-" r => (true, r)
    | String "+" r => (false, r)
    | _ => (false, s1)
    end in
  let '(radix, s3) :=
    match s2 with
    | String "0" (String "x" r) => (16%Z, r)
    | String "0" (String "X" r) => (16%Z, r)
    | _ => (10%Z, s2)
    end in
  match read_digits radix s3 None with
  | Some v => of_Z (if neg then - v else v)
  | None => NaN
  end.

(** ** Data model *)

(** An inventory item, as the handlers read it. *)
Record item : Type := Item {
  item_name : string;
  attack : num;
  durability : num
}.

(** [equipment]: the weapon slot ([None] is [null]). *)
Record equipment_t : Type := Equipment {
  weapon : option item
}.

(** A player object.  Every member is optional: the store may hold any
    partial profile.  [data_weapon] is the member [weapon] of the object
    itself (read as [data.weapon] by the hydration), not the slot inside
    [equipment]. *)
Record profile : Type := Profile {
  id : option string;
  name : option string;
  type : option string;
  health : option num;
  stamina : option num;
  experience : option num;
  equipment : option equipment_t;
  inventory : option (list item);
  presence : option string;
  effects : option (list (string * string));
  wealth : option num;
  cooldown : option num;
  data_weapon : option item;
  alias : option string
}.

(** [{}]. *)
Definition no_profile : profile :=
  Profile None None None None None None None None None None None None None None.

(** One member of [Object.assign]: the source's member when it has one
    (a member that is there with the value [undefined] counts as absent). *)
Definition over {A : Type} (src dst : option A) : option A :=
  match src with
  | Some _ => src
  | None => dst
  end.

(** [Object.assign(target, source)]. *)
Definition assign (target source : profile) : profile :=
  {| id := over (id source) (id target);
     name := over (name source) (name target);
     type := over (type source) (type target);
     health := over (health source) (health target);
     stamina := over (stamina source) (stamina target);
     experience := over (experience source) (experience target);
     equipment := over (equipment source) (equipment target);
     inventory := over (inventory source) (inventory target);
     presence := over (presence source) (presence target);
     effects := over (effects source) (effects target);
     wealth := over (wealth source) (wealth target);
     cooldown := over (cooldown source) (cooldown target);
     data_weapon := over (data_weapon source) (data_weapon target);
     alias := over (alias source) (alias target) |}.

Definition set_id (v : option string) (p : profile) : profile :=
  Profile v (name p) (type p) (health p) (stamina p) (experience p)
    (equipment p) (inventory p) (presence p) (effects p) (wealth p) (cooldown p)
    (data_weapon p) (alias p).

Definition set_wealth (v : option num) (p : profile) : profile :=
  Profile (id p) (name p) (type p) (health p) (stamina p) (experience p)
    (equipment p) (inventory p) (presence p) (effects p) v (cooldown p)
    (data_weapon p) (alias p).

Definition set_experience (v : option num) (p : profile) : profile :=
  Profile (id p) (name p) (type p) (health p) (stamina p) v
    (equipment p) (inventory p) (presence p) (effects p) (wealth p) (cooldown p)
    (data_weapon p) (alias p).

Definition set_cooldown (v : option num) (p : profile) : profile :=
  Profile (id p) (name p) (type p) (health p) (stamina p) (experience p)
    (equipment p) (inventory p) (presence p) (effects p) (wealth p) v
    (data_weapon p) (alias p).

Definition set_presence (v : option string) (p : profile) : profile :=
  Profile (id p) (name p) (type p) (health p) (stamina p) (experience p)
    (equipment p) (inventory p) v (effects p) (wealth p) (cooldown p)
    (data_weapon p) (alias p).

(** What an announcement says. *)
Inductive notice : Type :=
| LevelReached (who : option string) (level : num)
| PeaceDisrupted (who : option string)
| Blessed (who : option string)
| MonsterSlain (who : option string) (monster : string) (loot : num)
| ItemEquipped (who : option string) (found : string)
| ItemDiscarded (who : option string) (found : string)
| ItemFound (who : option string) (found : string) (carried : nat).

(** What leaves the engine, in order. *)
Inductive event : Type :=
| Committed
| Message (target : string) (object : notice)
| Whisper (target from_name from_id : option string) (amount : num)
| Ticked
| Put (path : string)
| Failure (what : string).

(** The state of the engine: the [players] tree of [rpg.state], the last
    committed snapshot, the journal of effects, and how many times
    [Math.random] was drawn. *)
Record world : Type := World {
  players : gmap string profile;
  durable : gmap string profile;
  journal : list event;
  draws : nat
}.

Definition set_players (ps : gmap string profile) (w : world) : world :=
  World ps (durable w) (journal w) (draws w).

(** ** Computations *)

(** What a rejected promise carries: the [TypeError] of the runtime (a
    member read or written on [undefined], also inside the patch library,
    which is called without validation), or any other rejection, as of a
    collaborator ([service.join]). *)
Inductive exn : Type :=
| TypeError
| OtherError.

Inductive outcome (A : Type) : Type :=
| Ret (a : A)
| Throw (e : exn).
Arguments Ret {A} a.
Arguments Throw {A} e.

Definition M (A : Type) : Type := world -> outcome A * world.

Definition ret {A : Type} (a : A) : M A := fun w => (Ret a, w).

Definition throw {A : Type} (e : exn) : M A := fun w => (Throw e, w).

Definition bind {A B : Type} (m : M A) (k : A -> M B) : M B :=
  fun w =>
    match m w with
    | (Ret a, w') => k a w'
    | (Throw e, w') => (Throw e, w')
    end.

(** [try { m } catch (E) { h }], and [.catch(h)] on a promise. *)
Definition catch {A : Type} (m : M A) (h : exn -> M A) : M A :=
  fun w =>
    match m w with
    | (Ret a, w') => (Ret a, w')
    | (Throw e, w') => h e w'
    end.

Notation "x <- m ;; k" := (bind m (fun x => k))
  (at level 100, m at next level, right associativity).
Notation "m ;;; k" := (bind m (fun _ => k))
  (at level 100, right associativity).

Definition emit (e : event) : M unit :=
  fun w => (Ret tt, World (players w) (durable w) (journal w ++ [e]) (draws w)).

(** [rpg.error(...)]: logs and yields [undefined]. *)
Definition error (what : string) : M unit := emit (Failure what).

(** [rpg.commit()]: the whole tree is written to the durable path. *)
Definition commit : M unit :=
  fun w => (Ret tt, World (players w) (players w) (journal w ++ [Committed]) (draws w)).

(** ** Configuration and collaborators *)

(** The configuration globals of the module. *)
Definition PER_TICK_CAPITAL : num := of_Z 10.
Definition PER_TICK_EXPERIENCE : num := of_Z 10.
Definition TICK_INTERVAL : num := of_Z 600000.
Definition ENCOUNTER_CHANCE : Q := 5 # 100.

Module Config.

(** [rpg.config], as far as the engine reads it. *)
Record t : Type := Make {
  alias : string;
  interval : num;
  luck : Q;
  PER_TICK_CAPITAL : num;
  PER_TICK_EXPERIENCE : num
}.

(** The object handed to the constructor: any member may be left out. *)
Record options : Type := Options {
  opt_alias : option string;
  opt_interval : option num;
  opt_luck : option Q;
  opt_PER_TICK_CAPITAL : option num;
  opt_PER_TICK_EXPERIENCE : option num
}.

End Config.

(** The constructor: the defaults, overridden by what the caller gave. *)
Definition constructor (o : Config.options) : Config.t :=
  {| Config.alias := default "@idlerpg:verse.im" (Config.opt_alias o);
     Config.interval := default TICK_INTERVAL (Config.opt_interval o);
     Config.luck := default ENCOUNTER_CHANCE (Config.opt_luck o);
     Config.PER_TICK_CAPITAL := default PER_TICK_CAPITAL (Config.opt_PER_TICK_CAPITAL o);
     Config.PER_TICK_EXPERIENCE :=
       default PER_TICK_EXPERIENCE (Config.opt_PER_TICK_EXPERIENCE o) |}.

(** A chat service; [None] is a rejected promise. *)
Record service : Type := Service {
  agent_id : string;
  _getMembers : string -> option (list string);
  _getPresence : string -> option string
}.

(** What [new Encounter(player)] found. *)
Inductive encounter_type : Type :=
| blessing
| monster (monster_name : string) (loot : num)
| found_item (found : string) (equipped skipped : bool) (carried : nat)
| other_type.

Record encounter : Type := MkEncounter {
  entity : profile;
  encounter_kind : encounter_type
}.

(** The collaborators of the engine that live outside this file.
    - [Entity data] are the own members of [new Entity(data)] and
      [level data] its derived [level] (module [./entity]);
    - [Encounter player n] is [new Encounter(player)] when [n] random
      numbers were drawn before (module [./encounter]);
    - [random n] is the result of the [n]-th call of [Math.random];
    - [shared] tells whether [_GET] hands out the stored object itself
      (a later assignment to it then shows in the tree) or a copy. *)
Record env : Type := Env {
  config : Config.t;
  services : list (string * service);
  channels : list string;
  random : nat -> Q;
  Entity : profile -> profile;
  level : profile -> num;
  Encounter : profile -> nat -> encounter;
  shared : bool
}.

(** ** The patch library on the [players] tree *)

Inductive jsvalue : Type :=
| VProfile (p : profile)
| VNum (n : num)
| VStr (s : string).

Inductive opkind : Type := add | replace.

Record operation : Type := Operation {
  op : opkind;
  path : string;
  value : jsvalue
}.

(** Assignment of one member of a stored player (the members the engine
    patches). *)
Definition set_member (member : string) (v : jsvalue) (p : profile) : option profile :=
  match v with
  | VNum n =>
      if String.eqb member "wealth" then Some (set_wealth (Some n) p)
      else if String.eqb member "cooldown" then Some (set_cooldown (Some n) p)
      else None
  | VStr s =>
      if String.eqb member "presence" then Some (set_presence (Some s) p) else None
  | VProfile _ => None
  end.

(** One operation, without validation: the walk along the keys fails when
    a key before the last does not lead to an object; the last key is
    assigned, whether the member existed or not. *)
Definition applyOperation (o : operation) (ps : gmap string profile)
  : option (gmap string profile) :=
  match keys_of (path o) with
  | [root; k] =>
      if String.eqb root "players" then
        match value o with
        | VProfile p => Some (<[k := p]> ps)
        | _ => None
        end
      else None
  | [root; k; member] =>
      if String.eqb root "players" then
        match ps !! k with
        | Some p =>
            match set_member member (value o) p with
            | Some p' => Some (<[k := p']> ps)
            | None => None
            end
        | None => None
        end
      else None
  | _ => None
  end.

(** [manager.applyPatch(rpg.state, ops)]: the operations in order; the
    first one that fails throws and leaves the earlier ones applied.  No
    validation is asked for, so the failure is the [TypeError] of the
    assignment to a member of [undefined], not an error of the library's
    own. *)
Fixpoint applyPatch (ops : list operation) : M unit :=
  match ops with
  | [] => ret tt
  | o :: rest =>
      fun w =>
        match applyOperation o (players w) with
        | Some ps => applyPatch rest (set_players ps w)
        | None => (Throw TypeError, w)
        end
  end.

(** [rpg._GET(path)] of a player path: the value at the pointer, or
    nothing. *)
Definition _GET (path : string) : M (option profile) :=
  fun w =>
    match keys_of path with
    | [root; k] =>
        if String.eqb root "players" then (Ret (players w !! k), w) else (Ret None, w)
    | _ => (Ret None, w)
    end.

(** ** The engine *)

(** [x || d] on a possibly absent string (the empty string is falsy). *)
Definition str_or (x : option string) (d : string) : string :=
  match x with
  | Some s => if String.eqb s "" then d else s
  | None => d
  end.

(** A possibly absent number in arithmetic: [undefined] counts as [NaN]. *)
Definition to_number (x : option num) : num :=
  match x with
  | Some n => n
  | None => NaN
  end.

(** [pointer.escape(x)]: throws on [undefined]. *)
Definition pointer_escape (x : option string) : M string :=
  match x with
  | Some s => ret (escape s)
  | None => throw TypeError
  end.

(** [Math.random()]. *)
Definition draw (rnd : nat -> Q) : M Q :=
  fun w => (Ret (rnd (draws w)), World (players w) (durable w) (journal w) (S (draws w))).

Definition emit_all (es : list event) : M unit :=
  fun w => (Ret tt, World (players w) (durable w) (journal w ++ es) (draws w)).

Section Engine.

Context (E : env).

(** The messages of one announcement: one for every service and every
    monitored channel. *)
Definition announcement (text : notice) : list event :=
  flat_map
    (fun s => map (fun c => Message (join "/" [fst s; "channels"; c]) text) (channels E))
    (services E).

Definition announce (text : notice) : M unit := emit_all (announcement text).

(** [_getProfile(id)]: the stored value overlaid on a fresh entity, every
    defaulted member filled in. *)
Definition _getProfile (id_ : string) : M profile :=
  let parts := split "/" id_ in
  let parts := if (length parts =? 1)%nat then ["local"; "users"; id_] else parts in
  let path_ := join "/" parts in
  let target := escape path_ in
  prior <- _GET ("/players/" ++ target)%string ;;
  let base := Entity E (set_id (Some path_) no_profile) in
  let data := assign (assign no_profile base) (default no_profile prior) in
  ret {| id := id data;
         name := name data;
         type := Some "Player";
         health := Some (num_or (health data) (of_Z 100));
         stamina := Some (num_or (stamina data) (of_Z 100));
         experience := Some (num_or (experience data) (of_Z 0));
         equipment := Some (Equipment (data_weapon data));
         inventory := Some (default [] (inventory data));
         presence := Some (str_or (presence data) "offline");
         effects := Some (default [] (effects data));
         wealth := Some (num_or (wealth data) (of_Z 0));
         cooldown := None;
         data_weapon := None;
         alias := None |}.

(** The path under which [_registerPlayer] files a player: the first
    and the third piece of the id around ["users"]; an id of one piece
    is replaced by the list [['local', 'users', player]], whose third
    element is the player object itself. *)
Definition registered_id (player_id : string) : string :=
  let parts := split "/" player_id in
  let parts := if (length parts =? 1)%nat
               then ["local"; "users"; "[object Object]"] else parts in
  join "/" [nth 0 parts ""; "users"; nth 2 parts ""].

(** [_registerPlayer(player)]: the stored value after the upsert, or
    [undefined] for a player without id. *)
Definition _registerPlayer (player : profile) : M (option profile) :=
  match id player with
  | Some (String _ _ as player_id) =>
      let target := escape (registered_id player_id) in
      let path_ := ("/players/" ++ target)%string in
      let data := assign no_profile player in
      catch (applyPatch [Operation replace path_ (VProfile data)])
            (fun _ => error "cannot apply patch:") ;;;
      commit ;;;
      _GET path_
  | _ => error "Player must have an 'id' property." ;;; ret None
  end.

(** [penalize(player)]; the result is the player object as the call
    leaves it. *)
Definition penalize (player : profile) : M profile :=
  target <- pointer_escape (id player) ;;
  let notify :=
    match cooldown player with
    | None => true
    | Some c => negb (truthy c) || nlt c (of_Z 100)
    end in
  let player := set_cooldown (Some (of_Z 1000)) player in
  let player := set_wealth (Some (nmul (to_number (wealth player)) half)) player in
  applyPatch
    [Operation replace ("/players/" ++ target ++ "/cooldown")%string (VNum (to_number (cooldown player)));
     Operation replace ("/players/" ++ target ++ "/wealth")%string (VNum (to_number (wealth player)))] ;;;
  commit ;;;
  (if notify then announce (PeaceDisrupted (name player)) else ret tt) ;;;
  ret player.

(** [_rollForEncounter(instance)]. *)
Definition _rollForEncounter (instance : profile) : M (option profile) :=
  let player := assign no_profile instance in
  r <- draw (random E) ;;
  if negb (Qle_bool (Config.luck (config E)) r) then
    fun w =>
      let enc := Encounter E player (draws w) in
      let result := assign (assign no_profile player) (entity enc) in
      (match encounter_kind enc with
       | blessing => announce (Blessed (name player))
       | monster m l => announce (MonsterSlain (name player) m l)
       | found_item f true _ _ => announce (ItemEquipped (name player) f)
       | found_item f false true _ => announce (ItemDiscarded (name player) f)
       | found_item f false false n => announce (ItemFound (name player) f n)
       | other_type => ret tt
       end ;;; ret (Some result)) w
  else ret None.

(** [reward(player)]; the result is the player object as the call
    leaves it. *)
Definition reward (player : profile) : M profile :=
  let prior := level E player in
  instance <- _rollForEncounter player ;;
  let player := match instance with
                | Some i => assign player i
                | None => player
                end in
  let player := set_wealth
                  (Some (nadd (num_or (wealth player) (of_Z 0)) PER_TICK_CAPITAL)) player in
  let player := set_experience
                  (Some (nadd (num_or (experience player) (of_Z 0)) PER_TICK_EXPERIENCE)) player in
  let sample := level E player in
  (if truthy sample && ngt sample prior
   then announce (LevelReached (name player) sample) else ret tt) ;;;
  target <- pointer_escape (id player) ;;
  applyPatch [Operation replace ("/players/" ++ target)%string (VProfile player)] ;;;
  commit ;;;
  ret player.

(** The cooldown step of a round. *)
Definition relax (profile_ : profile) : profile :=
  match cooldown profile_ with
  | Some c =>
      if truthy c
      then set_cooldown (Some (nsub c (Config.PER_TICK_CAPITAL (config E)))) profile_
      else profile_
  | None => profile_
  end.

(** [_computeRound(player)]: the profile of the round, or [None] for
    [false]. *)
Definition _computeRound (player : profile) : M (option profile) :=
  fetched <- catch
      (match id player with
       | Some i => p <- _getProfile i ;; ret (Some p)
       | None => throw TypeError
       end)
      (fun _ => error "Could not get profile:" ;;; ret None) ;;
  match fetched with
  | None => ret None
  | Some profile_ =>
      let profile_ := relax profile_ in
      if bool_decide (presence profile_ = Some "online")
      then (p <- reward profile_ ;; ret (Some p))
      else ret (Some profile_)
  end.

End Engine.

(** ** Messages and the transfer handler *)

(** A member of an inbound message: absent, a string, or a value of
    another type (of which only the truth value matters). *)
Inductive member : Type :=
| Absent
| Str (s : string)
| Other (truth : bool).

Definition falsy (m : member) : bool :=
  match m with
  | Absent => true
  | Str s => String.eqb s ""
  | Other b => negb b
  end.

(** An inbound message; [origin] is [message.origin.name], and [None]
    a message without [origin]. *)
Record message : Type := MkMessage {
  actor : member;
  object : member;
  target : option string;
  origin : option string
}.

(** The answers of the transfer handler, one per [return]. *)
Inductive reply : Type :=
| MissingObject        (* Transfer message must have property "object". *)
| MissingActor         (* Transfer message must have property "actor". *)
| ObjectNotString      (* Transfer message property "object" must be a string. *)
| ActorNotString       (* Transfer message property "actor" must be a string. *)
| CommandFormat        (* Command format: `!transfer <amount> <user>` *)
| SelfTransfer         (* You cannot transfer money to yourself. *)
| NoWealth             (* You have no wealth to transfer. *)
| Shortfall (n : num)  (* You do not have that amount.  You'll need **n** more ... *)
| NotCompleted         (* Could not complete your transfer request at this time: ... *)
| Transferred.         (* Balance transferred successfully! *)

Section Handlers.

Context (E : env).

(** [_handleMessage(message)]: a message in a monitored channel is
    penalized. *)
Definition _handleMessage (m : message) : M unit :=
  if bool_decide (Exists (fun c => Some c = target m) (channels E)) then
    match actor m with
    | Str a => p <- _getProfile E a ;; penalize E p ;;; ret tt
    | _ => throw TypeError
    end
  else ret tt.

(** [_handleTransferRequest(message)].  The check [if (!target)] of the
    source never fires, [target] being an object, and has no branch
    here. *)
Definition _handleTransferRequest (m : message) : M reply :=
  if falsy (object m) then ret MissingObject
  else if falsy (actor m) then ret MissingActor
  else
    match object m, actor m with
    | Str object_, Str actor_ =>
        let parts := split " " object_ in
        if negb (length parts =? 3)%nat then ret CommandFormat
        else if bool_decide (split "/" actor_ !! 2%nat = parts !! 2%nat)
        then ret SelfTransfer
        else
          let token := nth 2 parts "" in
          actor <- _getProfile E actor_ ;;
          target <- match origin m with
                    | Some service_name =>
                        _getProfile E (service_name ++ "/users/" ++ token)%string
                    | None => throw TypeError
                    end ;;
          let amount := parseInt (nth 1 parts "") in
          actorID <- pointer_escape (id actor) ;;
          targetID <- pointer_escape (id target) ;;
          if negb (truthy (to_number (wealth actor))) then ret NoWealth
          else if nlt (parseInt_num (nsub (to_number (wealth actor)) amount)) (of_Z 0)
          then ret (Shortfall (parseInt_num (nsub (to_number (wealth actor)) amount)))
          else
            _registerPlayer actor ;;;
            _registerPlayer target ;;;
            patched <- catch
                (applyPatch
                   [Operation replace ("/players/" ++ actorID ++ "/wealth")%string
                      (VNum (nsub (parseInt_num (to_number (wealth actor)))
                                  (parseInt_num amount)));
                    Operation replace ("/players/" ++ targetID ++ "/wealth")%string
                      (VNum (nadd (parseInt_num (to_number (wealth target)))
                                  (parseInt_num amount)))] ;;;
                 ret true)
                (fun _ => error "could not serialize transaction:" ;;; ret false) ;;
            if patched then
              commit ;;;
              emit (Whisper (id target) (name actor) (id actor) amount) ;;;
              ret Transferred
            else ret NotCompleted
    | Str _, _ => ret ActorNotString
    | _, _ => ret ObjectNotString
    end.

End Handlers.

(** ** Player enumeration and the tick *)

(** The answers of the list handlers. *)
Inductive listing : Type :=
| OnlineMembers (names : list (option string))
| Memberlist (names : list (option string))
| Leaderboard (entries : list (option string * option num)).

(** [list.sort((a, b) => b.experience - a.experience)], as a stable
    insertion sort: [a] goes behind [b] when the comparator is above [0]
    on [(a, b)] (a comparator result of [NaN] counts as [0]). *)
Definition goes_behind (a b : profile) : bool :=
  ngt (nsub (to_number (experience b)) (to_number (experience a))) (of_Z 0).

Fixpoint insert_ranked (x : profile) (sorted : list profile) : list profile :=
  match sorted with
  | [] => [x]
  | y :: rest => if goes_behind x y then y :: insert_ranked x rest else x :: sorted
  end.

Definition sort_by_experience (l : list profile) : list profile :=
  fold_right insert_ranked [] l.

Section Players.

Context (E : env).

(** The body of [for (let j in members)]: [None] is the [return;] out
    of the whole function, [Some acc] the list so far.  The presence is
    assigned to the object [_registerPlayer] handed back; when that is the
    stored object itself, the tree changes with it. *)
Fixpoint members_loop (service_name : string) (s : service) (members : list string)
                      (acc : list profile) : M (option (list profile)) :=
  match members with
  | [] => ret (Some acc)
  | m :: rest =>
      if String.eqb m (agent_id s) then ret None
      else
        let path_ := join "/" [service_name; "users"; m] in
        fetched <- catch (p <- _getProfile E path_ ;; ret (Some p))
                         (fun _ => error "profile" ;;; ret None) ;;
        player <- catch (match fetched with
                         | Some p => _registerPlayer p
                         | None => throw TypeError
                         end)
                        (fun _ => error "register" ;;; ret None) ;;
        match fetched, player with
        | Some p, Some stored =>
            seen <- match _getPresence s m with
                    | Some v => ret (Some v)
                    | None => error "presence" ;;; ret None
                    end ;;
            let stored := set_presence seen stored in
            (if shared E
             then fun w =>
                    (Ret tt,
                     set_players
                       (<[registered_id (str_or (id p) "") := stored]> (players w)) w)
             else ret tt) ;;;
            members_loop service_name s rest (acc ++ [stored])
        | _, _ => members_loop service_name s rest acc
        end
  end.

(** The body of [for (let i in rpg.channels)]. *)
Fixpoint channels_loop (service_name : string) (s : service) (chans : list string)
                       (acc : list profile) : M (option (list profile)) :=
  match chans with
  | [] => ret (Some acc)
  | c :: rest =>
      members <- match _getMembers s c with
                 | Some ms => ret ms
                 | None => ret []
                 end ;;
      r <- members_loop service_name s members acc ;;
      match r with
      | Some acc' => channels_loop service_name s rest acc'
      | None => ret None
      end
  end.

(** The body of [for (let name in rpg.fabric.services)]. *)
Fixpoint services_loop (ss : list (string * service)) (acc : list profile)
  : M (option (list profile)) :=
  match ss with
  | [] => ret (Some acc)
  | (service_name, s) :: rest =>
      r <- channels_loop service_name s (channels E) acc ;;
      match r with
      | Some acc' => services_loop rest acc'
      | None => ret None
      end
  end.

(** [_getPlayers()]: the list of players, or [None] for [undefined]. *)
Definition _getPlayers : M (option (list profile)) :=
  services_loop (services E) [].

(** [_getActivePlayers()]; [filter] on [undefined] throws. *)
Definition _getActivePlayers : M (list profile) :=
  players_ <- _getPlayers ;;
  match players_ with
  | Some l =>
      let online := filter (fun x => presence x = Some "online") l in
      ret (filter (fun x => alias x ≠ Some (Config.alias (config E))) online)
  | None => throw TypeError
  end.

(** [for (let i in players) await rpg._computeRound(players[i])]. *)
Fixpoint rounds (players_ : list profile) : M unit :=
  match players_ with
  | [] => ret tt
  | p :: rest => _computeRound E p ;;; rounds rest
  end.

(** [tick()]; after a failed fetch [players] is [undefined], over which
    the loop runs no round. *)
Definition tick : M unit :=
  players_ <- catch _getActivePlayers
                    (fun _ => error "Could not get active players:" ;;; ret []) ;;
  rounds players_ ;;;
  emit Ticked.

(** [_handleOnlineRequest()]. *)
Definition _handleOnlineRequest : M listing :=
  l <- _getActivePlayers ;;
  ret (OnlineMembers (map name l)).

(** [_handleMemberlistRequest()]; [map] on [undefined] throws. *)
Definition _handleMemberlistRequest : M listing :=
  l <- _getPlayers ;;
  match l with
  | Some l => ret (Memberlist (map name l))
  | None => throw TypeError
  end.

(** [_handleLeaderboardRequest()]; [sort] on [undefined] throws. *)
Definition _handleLeaderboardRequest : M listing :=
  l <- _getPlayers ;;
  match l with
  | Some l =>
      let members := take 10 (map (fun x => (name x, experience x)) (sort_by_experience l)) in
      emit (Put "/leaderboard") ;;;
      ret (Leaderboard members)
  | None => throw TypeError
  end.

End Players.

(** ** The heartbeat *)

(** A tick in progress, between two of its [await]s: waiting for the
    active players, or for the round of the first of the players left. *)
Inductive progress : Type :=
| Fetching
| Rounds (remaining : list profile).

Record ticking : Type := Ticking {
  tick_number : nat;
  phase : progress
}.

(** The process between two turns of the event loop: the world, the ticks
    in progress, how many ticks were started, and which tick computed the
    round of which player, in order. *)
Record process : Type := Process {
  now : world;
  running : list ticking;
  started : nat;
  computed : list (nat * option string)
}.

Inductive turn : Type :=
| Fire                (* the interval timer fires *)
| Resume (i : nat).   (* the awaited call of the i-th tick in progress completes *)

Section Heartbeat.

Context (E : env).

(** A tick continues after its [await]: the awaited call takes effect,
    and the tick runs on to its next [await] or to its end. *)
Definition resume (p : progress) : M (option progress) :=
  match p with
  | Fetching =>
      players_ <- catch (_getActivePlayers E)
                        (fun _ => error "Could not get active players:" ;;; ret []) ;;
      match players_ with
      | [] => emit Ticked ;;; ret None
      | _ :: _ => ret (Some (Rounds players_))
      end
  | Rounds [] => emit Ticked ;;; ret None
  | Rounds (player :: rest) =>
      _computeRound E player ;;;
      match rest with
      | [] => emit Ticked ;;; ret None
      | _ :: _ => ret (Some (Rounds rest))
      end
  end.

(** The callback of [setInterval] in [start]: [rpg.tick()] is called,
    whatever else is in progress; the new tick runs up to its first
    [await]. *)
Definition fire (s : process) : process :=
  Process (now s) (running s ++ [Ticking (started s) Fetching]) (S (started s))
          (computed s).

Definition heartbeat (t : turn) (s : process) : process :=
  match t with
  | Fire => fire s
  | Resume i =>
      match running s !! i with
      | Some (Ticking n p) =>
          let log := match p with
                     | Rounds (player :: _) => computed s ++ [(n, id player)]
                     | _ => computed s
                     end in
          match resume p (now s) with
          | (Ret (Some p'), w) => Process w (<[i := Ticking n p']> (running s)) (started s) log
          | (_, w) => Process w (delete i (running s)) (started s) log
          end
      | None => s
      end
  end.

(** The turns of a schedule, first to last. *)
Definition schedule (turns : list turn) (s : process) : process :=
  fold_left (fun s t => heartbeat t s) turns s.

(** A tick run to its end with nothing in between. *)
Fixpoint finish (steps : nat) (p : progress) : M unit :=
  match steps with
  | O => ret tt
  | S steps =>
      r <- resume p ;;
      match r with
      | Some p' => finish steps p'
      | None => ret tt
      end
  end.

End Heartbeat.

(** ** Observations *)

(** The engine with other per-tick constants in its configuration. *)
Definition with_rates (capital experience_ : num) (E : env) : env :=
  Env (Config.Make (Config.alias (config E)) (Config.interval (config E))
         (Config.luck (config E)) capital experience_)
      (services E) (channels E) (random E) (Entity E) (level E) (Encounter E) (shared E).

(** The profile [_getProfile] returns for an id. *)
Definition hydrated (E : env) (i : string) (w : world) : profile :=
  match fst (_getProfile E i w) with
  | Ret p => p
  | Throw _ => no_profile
  end.

(** The player of [reward] once the encounter, if there was one, is
    merged in. *)
Definition after_encounter (E : env) (player : profile) (w : world) : profile :=
  match fst (_rollForEncounter E player w) with
  | Ret (Some instance) => assign player instance
  | _ => player
  end.

Definition is_tick (e : event) : bool :=
  match e with
  | Ticked => true
  | _ => false
  end.

(** How many tick-complete signals a journal holds. *)
Definition count_ticks (j : list event) : nat := length (List.filter is_tick j).

Definition ticks (w : world) : nat := count_ticks (journal w).

(** The process after [start]: nothing in progress. *)
Definition started_process (w : world) : process := Process w [] 0 [].

(** ** Predicates of the statements *)

(** Every defaulted member of a profile is there: the numbers are numbers
    ([health] and [stamina] not even [0]), and the equipment has its
    weapon slot. *)
Definition fully_defaulted (p : profile) : Prop :=
  (exists h, health p = Some h /\ truthy h = true) /\
  (exists s, stamina p = Some s /\ truthy s = true) /\
  (exists x, experience p = Some x /\ x <> NaN) /\
  (exists x, wealth p = Some x /\ x <> NaN) /\
  is_Some (presence p) /\
  is_Some (inventory p) /\
  is_Some (effects p) /\
  (exists slot, equipment p = Some (Equipment slot)).

(** The cooldown is below 100; an absent cooldown counts as below 100, and
    so does one that is not a number. *)
Definition cooldown_below_100 (c : option num) : Prop :=
  match c with
  | Some (Fin q) => (q < 100)%Q
  | Some NaN => True
  | None => True
  end.

(** ** The claim about the heartbeat, as the specification words it *)

(** Two ticks never run concurrently: whatever the turns of the event
    loop, at most one tick is in progress. *)
Definition never_concurrent (E : env) (w : world) : Prop :=
  forall turns, (length (running (schedule E turns (started_process w))) <= 1)%nat.

(** ** Sample data *)

(** A chat service with two members besides the agent, both online. *)
Definition chat : service :=
  Service "bot"
    (fun c => if String.eqb c "idlerpg" then Some ["alice"; "bob"] else None)
    (fun _ => Some "online").

(** The same service when the agent itself sits in the channel. *)
Definition chat_with_agent : service :=
  Service "bot"
    (fun c => if String.eqb c "idlerpg" then Some ["alice"; "bot"; "bob"] else None)
    (fun _ => Some "online").

Definition defaults : Config.t := constructor (Config.Options None None None None None).

(** Modelled from the spec: the derived [level] of an entity (module
    [./entity], not among the sources at hand), a pure function of the
    experience of the snapshot; the samples take one level per 100
    experience. *)
Definition snapshot_level (p : profile) : num :=
  match experience p with
  | Some (Fin q) => of_Z (Qfloor (q / 100))
  | _ => NaN
  end.

(** Modelled from the spec: the collaborators [./entity] and
    [./encounter], not among the sources at hand.  An entity carries the
    members of the snapshot it was made from; [Math.random] never comes out
    below the luck, so no encounter happens; [_GET] hands out the stored
    object. *)
Definition engine (ss : list (string * service)) (config_ : Config.t) : env :=
  Env config_ ss ["idlerpg"] (fun _ => 1%Q) (fun p => p) snapshot_level
      (fun _ _ => MkEncounter no_profile other_type) true.

Definition village : env := engine [("local", chat)] defaults.
Definition haunted : env := engine [("local", chat_with_agent)] defaults.
Definition desert : env := engine [] defaults.

Definition stored_player (i : string) (wealth_ : Z) (cooldown_ : option num)
                         (presence_ : option string) : profile :=
  Profile (Some i) None (Some "Player") None None None None None presence_ None
          (Some (of_Z wealth_)) cooldown_ None None.

Definition nobody : world := World ∅ ∅ [] 0.

(** Alice owns 100, Bob nothing. *)
Definition bank : world :=
  World (<["local/users/alice" := stored_player "local/users/alice" 100 None None]>
           (<["local/users/bob" := stored_player "local/users/bob" 0 None None]> ∅))
        ∅ [] 0.

(** Alice is online and serves a cooldown of 1000. *)
Definition jail : world :=
  World (<["local/users/alice" :=
             stored_player "local/users/alice" 0 (Some (of_Z 1000)) (Some "online")]> ∅)
        ∅ [] 0.

Definition transfer_message (actor_ object_ : string) : message :=
  MkMessage (Str actor_) (Str object_) None (Some "local").

Definition wealth_of (i : string) (w : world) : option num :=
  p ← players w !! i; wealth p.

Definition cooldown_of (i : string) (w : world) : option num :=
  p ← players w !! i; cooldown p.

(** ** The query handlers *)

(** The answers of the query handlers, by what they tell. *)
Inductive sheet : Type :=
| PlayInvitation
| ProfileSheet (level_ : num) (experience_ stamina_ health_ wealth_ : option num)
               (weapon_ : option item) (status : option string)
| NoItems
| InventoryOf (carried : list item)
| BalanceOf (wealth_ : option num).

(** [rpg._getProfile(message.actor)]: [split] on anything but a string
    throws. *)
Definition profile_of_actor (E : env) (m : message) : M profile :=
  match actor m with
  | Str a => _getProfile E a
  | _ => throw TypeError
  end.

(** [_handlePlayRequest(message)]. *)
Definition _handlePlayRequest (m : message) : M sheet := ret PlayInvitation.

(** [_handleProfileRequest(message)]; [Object.keys] of a missing
    [effects] and [equipment.weapon] of a missing [equipment] throw. *)
Definition _handleProfileRequest (E : env) (m : message) : M sheet :=
  profile_ <- profile_of_actor E m ;;
  match effects (Entity E profile_) with
  | None => throw TypeError
  | Some effects_ =>
      match equipment profile_ with
      | None => throw TypeError
      | Some equipment_ =>
          ret (ProfileSheet (level E profile_) (experience profile_) (stamina profile_)
                 (health profile_) (wealth profile_) (weapon equipment_)
                 (head (map fst effects_)))
      end
  end.

(** [_handleInventoryRequest(message)]. *)
Definition _handleInventoryRequest (E : env) (m : message) : M sheet :=
  profile_ <- profile_of_actor E m ;;
  match inventory profile_ with
  | None => throw TypeError
  | Some [] => ret NoItems
  | Some items => ret (InventoryOf items)
  end.

(** [_handleBalanceRequest(message)]. *)
Definition _handleBalanceRequest (E : env) (m : message) : M sheet :=
  profile_ <- profile_of_actor E m ;;
  ret (BalanceOf (wealth profile_)).

(** The path [_getProfile] reads for an id. *)
Definition canonical (i : string) : string :=
  let parts := split "/" i in
  join "/" (if (length parts =? 1)%nat then ["local"; "users"; i] else parts).

(** ** Services getting ready *)

(** What [_handleServiceReady] works on: [rpg.channels], the channels
    the agent was made to join, and the complaints logged. *)
Record watch : Type := Watch {
  monitored : list string;
  joined : list string;
  complaints : list string
}.

(** [_handleServiceReady(service)], over the channels of the
    configuration; [joinable c] tells how [service.join(c)] ends: [None]
    when it resolves, [Some e] when it rejects with [e]. *)
Fixpoint _handleServiceReady (joinable : string -> option exn) (s : service)
                             (config_channels : list string) (st : watch)
  : outcome unit * watch :=
  match config_channels with
  | [] => (Ret tt, st)
  | channel_ :: rest =>
      match _getMembers s channel_ with
      | None =>
          _handleServiceReady joinable s rest
            (Watch (monitored st) (joined st) (complaints st ++ [channel_]))
      | Some members_ =>
          let st := Watch (monitored st ++ [channel_]) (joined st) (complaints st) in
          if bool_decide (agent_id s ∈ members_)
          then _handleServiceReady joinable s rest st
          else
            match joinable channel_ with
            | None =>
                _handleServiceReady joinable s rest
                  (Watch (monitored st) (joined st ++ [channel_]) (complaints st))
            | Some e => (Throw e, st)
            end
      end
  end.

(** Every service of the list getting ready, one after the other, as long
    as none throws. *)
Definition all_ready (joinable : string -> option exn) (ss : list (string * service))
                     (config_channels : list string) : watch :=
  fold_left (fun st s => snd (_handleServiceReady joinable (snd s) config_channels st))
            ss (Watch [] [] []).

(** ** Channels, users and joins *)

Record channel : Type := Channel {
  channel_id : string;
  channel_name : string;
  channel_members : list string
}.

(** A user or a channel as an event brings it: [{ id, name }]. *)
Record entry : Type := Entry {
  entry_id : option string;
  entry_name : option string
}.

(** [{ channel, user }] of a join event. *)
Record join_event : Type := Join {
  join_channel : string;
  join_user : string
}.

(** The engine with the [users] and [channels] trees of [rpg.state]
    beside the players, their committed snapshots, and the welcomes
    announced (target and name), which [notice] has no word for. *)
Record realm : Type := Realm {
  core : world;
  users : gmap string profile;
  channel_tree : gmap string channel;
  saved_users : gmap string profile;
  saved_channels : gmap string channel;
  welcomes : list (string * option string)
}.

Definition R (A : Type) : Type := realm -> outcome A * realm.

Definition rbind {A B : Type} (m : R A) (k : A -> R B) : R B :=
  fun r =>
    match m r with
    | (Ret a, r') => k a r'
    | (Throw e, r') => (Throw e, r')
    end.

(** A computation on the players, run inside the realm. *)
Definition lift {A : Type} (m : M A) : R A :=
  fun r =>
    let '(o, w) := m (core r) in
    (o, Realm w (users r) (channel_tree r) (saved_users r) (saved_channels r) (welcomes r)).

(** [rpg.commit()] with all the trees. *)
Definition rcommit : R unit :=
  fun r =>
    (Ret tt,
     Realm (snd (commit (core r))) (users r) (channel_tree r) (users r) (channel_tree r)
           (welcomes r)).

(** A [replace] of the whole value at [/root/key]: the walk fails on any
    other shape of path. *)
Definition put_at {V : Type} (root path_ : string) (v : V) (tree : gmap string V)
  : option (gmap string V) :=
  match keys_of path_ with
  | [r; k] => if String.eqb r root then Some (<[k := v]> tree) else None
  | _ => None
  end.

(** [_GET] of a path [/root/key]. *)
Definition get_at {V : Type} (root path_ : string) (tree : gmap string V) : option V :=
  match keys_of path_ with
  | [r; k] => if String.eqb r root then tree !! k else None
  | _ => None
  end.

(** [_registerChannel(channel)]: the stored channel, or [undefined] for a
    channel without id. *)
Definition _registerChannel (c : entry) : R (option channel) :=
  match entry_id c with
  | Some (String _ _ as cid) =>
      let parts := split "/" cid in
      let parts := if (length parts =? 1)%nat then ["local"; "channels"; cid] else parts in
      let id_ := join "/" parts in
      let target := escape id_ in
      let path_ := ("/channels/" ++ target)%string in
      let data := Channel id_ (str_or (entry_name c) id_) [] in
      rbind
        (fun r =>
           match put_at "channels" path_ data (channel_tree r) with
           | Some tree =>
               (Ret tt, Realm (core r) (users r) tree (saved_users r) (saved_channels r)
                              (welcomes r))
           | None => lift (error "cannot apply patch:") r
           end)
        (fun _ => rbind rcommit
        (fun _ r => (Ret (get_at "channels" path_ (channel_tree r)), r)))
  | _ => rbind (lift (error "Channel must have an 'id' property.")) (fun _ r => (Ret None, r))
  end.

(** [_registerUser(user)]: the stored profile, or [undefined] for a user
    without id or without name. *)
Definition _registerUser (E : env) (u : entry) : R (option profile) :=
  match entry_id u with
  | Some (String _ _ as uid) =>
      match entry_name u with
      | Some (String _ _) =>
          let parts := split "/" uid in
          let parts := if (length parts =? 1)%nat then ["local"; "users"; uid] else parts in
          let id_ := join "/" parts in
          let target := escape id_ in
          let path_ := ("/users/" ++ target)%string in
          rbind (lift (_getProfile E id_)) (fun profile_ =>
          rbind
            (fun r =>
               match put_at "users" path_ profile_ (users r) with
               | Some tree =>
                   (Ret tt, Realm (core r) tree (channel_tree r) (saved_users r)
                                  (saved_channels r) (welcomes r))
               | None => lift (error "cannot apply patch:") r
               end)
            (fun _ => rbind rcommit
            (fun _ r => (Ret (get_at "users" path_ (users r)), r))))
      | _ => rbind (lift (error "User must have a 'name' property."))
                   (fun _ r => (Ret None, r))
      end
  | _ => rbind (lift (error "User must have an 'id' property.")) (fun _ r => (Ret None, r))
  end.

(** [_welcomePlayer(player)]: the welcome goes to every service and every
    monitored channel; the name of an [undefined] player throws. *)
Definition _welcomePlayer (E : env) (player : option profile) : R unit :=
  match player with
  | Some p =>
      fun r =>
        (Ret tt,
         Realm (core r) (users r) (channel_tree r) (saved_users r) (saved_channels r)
               (welcomes r ++
                flat_map
                  (fun s => map (fun c => (join "/" [fst s; "channels"; c], name p))
                                (channels E))
                  (services E)))
  | None => fun r => (Throw TypeError, r)
  end.

(** [_handleJoin(join)]. *)
Definition _handleJoin (E : env) (j : join_event) : R unit :=
  rbind (_registerChannel (Entry (Some (join_channel j)) (Some (join_channel j)))) (fun _ =>
  let parts := split "/" (join_channel j) in
  let parts := if (length parts =? 1)%nat
               then ["local"; "channels"; join_channel j] else parts in
  if bool_decide (Exists (fun c => Some c = parts !! 2%nat) (channels E)) then
    rbind (lift (_registerPlayer (set_id (Some (join_user j)) no_profile))) (fun player =>
    _welcomePlayer E player)
  else fun r => (Ret tt, r)).

(** The realm around a world, with nothing else in it. *)
Definition realm_of (w : world) : realm := Realm w ∅ ∅ ∅ ∅ [].



(** ** Predicates of the further statements *)

(** A profile as the hydration makes it: without cooldown, without alias,
    and with a number for its experience. *)
Definition bare (p : profile) : Prop :=
  cooldown p = None /\ alias p = None /\ exists q, experience p = Some (Fin q).

(** The experience of a profile as a rational ([0] when it is no number). *)
Definition experience_points (p : profile) : Q :=
  match experience p with
  | Some (Fin q) => q
  | _ => 0
  end.

(** [a] may stand before [b] on the leaderboard. *)
Definition outranks (a b : profile) : Prop :=
  (experience_points b <= experience_points a)%Q.

(** An entry of the store is settled between two worlds when it is
    unchanged or holds a bare profile. *)
Definition settled (w w' : world) : Prop :=
  forall k, players w' !! k = players w !! k \/
            exists p, players w' !! k = Some p /\ bare p.


(** Whether the service answers for the members of a channel, and
    whether the answer lacks the agent. *)
Definition reaches (s : service) (c : string) : bool :=
  match _getMembers s c with
  | Some _ => true
  | None => false
  end.

Definition lacks_agent (s : service) (c : string) : bool :=
  match _getMembers s c with
  | Some ms => negb (bool_decide (agent_id s ∈ ms))
  | None => false
  end.


(** The piece of a channel id that [_handleJoin] looks for among the
    monitored channels. *)
Definition watched_piece (channel_ : string) : option string :=
  let parts := split "/" channel_ in
  let parts := if (length parts =? 1)%nat
               then ["local"; "channels"; channel_] else parts in
  parts !! 2%nat.


(** ** Further sample data *)

(** The engine before any service got ready: nothing is monitored. *)
Definition unmonitored : env :=
  Env defaults [("local", chat)] [] (fun _ => 1%Q) (fun p => p) snapshot_level
      (fun _ _ => MkEncounter no_profile other_type) true.

(** Two services that both got ready for the one configured channel. *)
Definition crowded : env :=
  Env defaults [("local", chat); ("matrix", chat)] ["idlerpg"; "idlerpg"]
      (fun _ => 1%Q) (fun p => p) snapshot_level
      (fun _ _ => MkEncounter no_profile other_type) true.


(** Alice is online, owns 100 and serves the cooldown [c]. *)
Definition serving (c : option num) : world :=
  World (<["local/users/alice" := stored_player "local/users/alice" 100 c (Some "online")]> ∅)
        ∅ [] 0.

(** Alice owns 12.5, what a penalty leaves of 25; Bob nothing. *)
Definition purse : world :=
  World (<["local/users/alice" :=
             set_wealth (Some (Fin (25 # 2))) (stored_player "local/users/alice" 0 None None)]>
           (<["local/users/bob" := stored_player "local/users/bob" 0 None None]> ∅))
        ∅ [] 0.

End IdleRPG.

Import IdleRPG.

(** * Facts *)

(** ** JSON pointers *)

Section Pointers.

Lemma append_cons c (a b : string) : (String c a ++ b)%string = String c (a ++ b)%string.
Proof. reflexivity. Qed.

Lemma append_empty (b : string) : ("" ++ b)%string = b.
Proof. reflexivity. Qed.

Lemma replace_pair_skip a b c x r :
x <> a -> replace_pair a b c (String x r) = String x (replace_pair a b c r).
Proof.
intros Hx. destruct r as [|y r']; [reflexivity|].
cbn [replace_pair]. destruct (Ascii.eqb_spec x a); [contradiction|]. reflexivity.
Qed.

Lemma escape_cons c s :
escape (String c s) =
  if Ascii.eqb c "~" then String "~" (String "0" (escape s))
  else if Ascii.eqb c "/" then String "~" (String "1" (escape s))
  else String c (escape s).
Proof.
unfold escape. cbn [replace_char].
destruct (Ascii.eqb_spec c "~") as [->|Hc]; [reflexivity|].
cbn [replace_char]. destruct (Ascii.eqb_spec c "/"); reflexivity.
Qed.

Lemma unescape_escape s : unescape (escape s) = s.
Proof.
unfold unescape.
assert (H1 : replace_pair "~" "1" "/" (escape s) = replace_char "~" "~0" s).
{ induction s as [|c s IH]; [reflexivity|].
  rewrite escape_cons. cbn [replace_char].
  destruct (Ascii.eqb_spec c "~") as [->|Hc].
  - change (replace_pair "~" "1" "/" (String "~" (String "0" (escape s))))
      with (String "~" (replace_pair "~" "1" "/" (String "0" (escape s)))).
    rewrite replace_pair_skip by discriminate. rewrite IH. reflexivity.
  - destruct (Ascii.eqb_spec c "/") as [->|Hs].
    + change (replace_pair "~" "1" "/" (String "~" (String "1" (escape s))))
        with (String "/" (replace_pair "~" "1" "/" (escape s))).
      rewrite IH. reflexivity.
    + rewrite replace_pair_skip by assumption. rewrite IH. reflexivity. }
rewrite H1. clear H1.
induction s as [|c s IH]; [reflexivity|].
cbn [replace_char]. destruct (Ascii.eqb_spec c "~") as [->|Hc].
- rewrite !append_cons, append_empty.
  change (replace_pair "~" "0" "~" (String "~" (String "0" (replace_char "~" "~0" s))))
    with (String "~" (replace_pair "~" "0" "~" (replace_char "~" "~0" s))).
  rewrite IH. reflexivity.
- rewrite replace_pair_skip by assumption. rewrite IH. reflexivity.
Qed.


Lemma split_other sep c s :
c <> sep ->
split sep (String c s) =
  match split sep s with
  | h :: t => String c h :: t
  | [] => [String c EmptyString]
  end.
Proof. intros H. cbn [split]. destruct (Ascii.eqb_spec c sep); [contradiction|reflexivity]. Qed.

Lemma split_free sep x : free_of sep x = true -> split sep x = [x].
Proof.
induction x as [|c x IH]; [reflexivity|]. cbn [free_of].
destruct (Ascii.eqb_spec c sep) as [|Hc]; [discriminate|]. cbn [negb andb]. intros Hx.
rewrite split_other, IH by assumption. reflexivity.
Qed.

Lemma split_app sep x r :
free_of sep x = true -> split sep (x ++ String sep r)%string = x :: split sep r.
Proof.
induction x as [|c x IH].
- intros _. rewrite append_empty. cbn [split]. rewrite Ascii.eqb_refl. reflexivity.
- cbn [free_of]. destruct (Ascii.eqb_spec c sep) as [|Hc]; [discriminate|].
  cbn [negb andb]. intros Hx.
  rewrite append_cons, split_other, IH by assumption. reflexivity.
Qed.

Lemma escape_free s : free_of "/" (escape s) = true.
Proof.
induction s as [|c s IH]; [reflexivity|]. rewrite escape_cons.
destruct (Ascii.eqb_spec c "~") as [->|Hc]; [exact IH|].
destruct (Ascii.eqb_spec c "/") as [->|Hs]; [exact IH|].
cbn [free_of]. destruct (Ascii.eqb_spec c "/"); [contradiction|exact IH].
Qed.

Lemma keys_of_player i : keys_of ("/players/" ++ escape i)%string = ["players"; i].
Proof.
unfold keys_of.
change ("/players/" ++ escape i)%string
  with ("" ++ String "/" ("players" ++ String "/" (escape i)))%string.
rewrite !split_app by reflexivity. rewrite split_free by apply escape_free.
cbn [map]. rewrite unescape_escape. reflexivity.
Qed.

Lemma keys_of_member i m :
free_of "/" m = true ->
keys_of ("/players/" ++ escape i ++ String "/" m)%string = ["players"; i; unescape m].
Proof.
intros Hm. unfold keys_of.
change ("/players/" ++ escape i ++ String "/" m)%string
  with ("" ++ String "/" ("players" ++ String "/" (escape i ++ String "/" m)))%string.
rewrite !split_app by first [reflexivity | apply escape_free].
rewrite split_free by assumption.
cbn [map]. rewrite unescape_escape. reflexivity.
Qed.

End Pointers.

(** ** Computations *)

Lemma bind_assoc {A B C : Type} (m : M A) (k : A -> M B) (h : B -> M C) w :
  bind (bind m k) h w = bind m (fun a => bind (k a) h) w.
Proof. unfold bind. destruct (m w) as [[a|e] w1]; reflexivity. Qed.

Lemma bind_run {A B : Type} (m : M A) (k : A -> M B) w a w1 :
  m w = (Ret a, w1) -> bind m k w = k a w1.
Proof. intros H. unfold bind. rewrite H. reflexivity. Qed.

Lemma bind_throw {A B : Type} (m : M A) (k : A -> M B) w e w1 :
  m w = (Throw e, w1) -> bind m k w = (Throw e, w1).
Proof. intros H. unfold bind. rewrite H. reflexivity. Qed.

Lemma bind_ext {A B : Type} (m : M A) (k k' : A -> M B) w :
  (forall a w', k a w' = k' a w') -> bind m k w = bind m k' w.
Proof. intros H. unfold bind. destruct (m w) as [[a|e] w1]; [apply H|reflexivity]. Qed.

(** ** Hydration *)

Lemma num_or_truthy x d : truthy d = true -> truthy (num_or x d) = true.
Proof.
  intros Hd. unfold num_or. destruct x as [n|]; [|exact Hd].
  destruct (truthy n) eqn:Hn; [exact Hn|exact Hd].
Qed.

Lemma num_or_number x d : d <> NaN -> num_or x d <> NaN.
Proof.
  intros Hd. unfold num_or. destruct x as [[|q]|]; cbn; try exact Hd.
  destruct (negb (Qeq_bool q 0)); [discriminate|exact Hd].
Qed.

Lemma _GET_reads path_ w : exists r, _GET path_ w = (Ret r, w).
Proof.
  unfold _GET. destruct (keys_of path_) as [|root [|k [|? ?]]]; eauto.
  destruct (String.eqb root "players"); eauto.
Qed.

Lemma _getProfile_reads E i w :
  exists p, _getProfile E i w = (Ret p, w) /\ fully_defaulted p /\ cooldown p = None.
Proof.
  unfold _getProfile, bind.
  match goal with |- context [_GET ?p w] => destruct (_GET_reads p w) as [r ->] end.
  unfold ret. eexists. split; [reflexivity|]. split; [|reflexivity].
  unfold fully_defaulted; cbn.
  repeat split; eauto using num_or_truthy, num_or_number.
Qed.

(** C4. Hydration is total and idempotent: whatever partial profile the
    store holds under the player's path (or none), [_getProfile] returns,
    leaves the world as it was, two calls in a row return the same
    profile, and that profile has every defaulted member, the weapon slot
    of the equipment included. *)
Theorem getProfile_total_idempotent (E : env) (i : string) (w : world) :
  exists p,
    _getProfile E i w = (Ret p, w) /\
    (a <- _getProfile E i ;; b <- _getProfile E i ;; ret (a, b)) w = (Ret (p, p), w) /\
    fully_defaulted p.
Proof.
  destruct (_getProfile_reads E i w) as (p & Hp & Hd & _).
  exists p. split; [exact Hp|]. split; [|exact Hd].
  unfold bind. rewrite Hp, Hp. reflexivity.
Qed.

(** ** The penalty *)

Lemma keys_of_cooldown i :
  keys_of ("/players/" ++ escape i ++ "/cooldown")%string = ["players"; i; "cooldown"].
Proof. exact (keys_of_member i "cooldown" eq_refl). Qed.

Lemma keys_of_wealth i :
  keys_of ("/players/" ++ escape i ++ "/wealth")%string = ["players"; i; "wealth"].
Proof. exact (keys_of_member i "wealth" eq_refl). Qed.

Lemma replace_cooldown ps i p o n :
  ps !! i = Some p ->
  applyOperation (Operation o ("/players/" ++ escape i ++ "/cooldown")%string (VNum n)) ps
  = Some (<[i := set_cooldown (Some n) p]> ps).
Proof.
  intros H. unfold applyOperation. cbn [path value]. rewrite keys_of_cooldown.
  cbn. rewrite H. reflexivity.
Qed.

Lemma replace_wealth ps i p o n :
  ps !! i = Some p ->
  applyOperation (Operation o ("/players/" ++ escape i ++ "/wealth")%string (VNum n)) ps
  = Some (<[i := set_wealth (Some n) p]> ps).
Proof.
  intros H. unfold applyOperation. cbn [path value]. rewrite keys_of_wealth.
  cbn. rewrite H. reflexivity.
Qed.

Lemma replace_wealth_missing ps i o n :
  ps !! i = None ->
  applyOperation (Operation o ("/players/" ++ escape i ++ "/wealth")%string (VNum n)) ps
  = None.
Proof.
  intros H. unfold applyOperation. cbn [path value]. rewrite keys_of_wealth.
  cbn. rewrite H. reflexivity.
Qed.

Lemma replace_player ps i o p :
  applyOperation (Operation o ("/players/" ++ escape i)%string (VProfile p)) ps
  = Some (<[i := p]> ps).
Proof.
  unfold applyOperation. cbn [path value]. rewrite keys_of_player. reflexivity.
Qed.

Lemma notify_below_100 q :
  negb (truthy (Fin q)) || nlt (Fin q) (of_Z 100) = true <-> (q < 100)%Q.
Proof.
  unfold truthy, nlt, of_Z. rewrite negb_involutive, orb_true_iff, negb_true_iff.
  rewrite Qeq_bool_iff. split.
  - intros [H0 | Hlt].
    + rewrite H0. reflexivity.
    + apply Qnot_le_lt. intros Hle. apply Qle_bool_iff in Hle.
      change (inject_Z 100) with 100%Q in Hlt. congruence.
  - intros Hlt. right. destruct (Qle_bool (inject_Z 100) q) eqn:Hle; [|reflexivity].
    apply Qle_bool_iff in Hle. exfalso. exact (Qlt_not_le _ _ Hlt Hle).
Qed.

Lemma halved q : exists h, nmul (Fin q) half = Fin h /\ (2 * h == q)%Q.
Proof.
  eexists. split; [reflexivity|]. rewrite Qred_correct. field.
Qed.

(** What [penalize] does guarantee, called on its own with a player
    object whose id is filed in the store: it sets the cooldown to 1000
    and halves the wealth, on the object and, through the patch of two
    operations, on the stored player; the tree is then committed; and the
    announcement is made if and only if the cooldown the object itself
    carried was below 100, an absent cooldown counting as below 100.  The
    cooldown of the stored player plays no part in it. *)
Theorem penalize_slashes (E : env) (player : profile) (i : string) (stored : profile) (w : world) :
  id player = Some i ->
  players w !! i = Some stored ->
  let slashed := nmul (to_number (wealth player)) half in
  let tree := <[i := set_wealth (Some slashed) (set_cooldown (Some (of_Z 1000)) stored)]> (players w) in
  exists announced : bool,
    (announced = true <-> cooldown_below_100 (cooldown player)) /\
    (forall q, wealth player = Some (Fin q) -> exists h, slashed = Fin h /\ (2 * h == q)%Q) /\
    penalize E player w =
      (Ret (set_wealth (Some slashed) (set_cooldown (Some (of_Z 1000)) player)),
       World tree tree
         (journal w ++ Committed ::
            (if announced then announcement E (PeaceDisrupted (name player)) else []))
         (draws w)).
Proof.
  intros Hid Hstored slashed tree.
  exists (match cooldown player with
          | None => true
          | Some c => negb (truthy c) || nlt c (of_Z 100)
          end).
  split; [|split].
  - destruct (cooldown player) as [[|q]|]; cbn [cooldown_below_100]; try tauto.
    apply notify_below_100.
  - intros q Hq. subst slashed. rewrite Hq. apply halved.
  - unfold penalize. rewrite Hid. unfold pointer_escape, bind, ret.
    cbn [applyPatch].
    rewrite (replace_cooldown _ _ _ _ _ Hstored). cbn [set_players players].
    rewrite (replace_wealth _ i (set_cooldown (Some (of_Z 1000)) stored))
      by apply lookup_insert_eq.
    rewrite insert_insert_eq.
    unfold commit, announce, emit_all. cbn.
    destruct (cooldown player) as [c|]; [destruct (negb (truthy c) || nlt c (of_Z 100))|];
      cbn; rewrite <- ?app_assoc, ?app_nil_r; reflexivity.
Qed.

(** ** The registry *)

Lemma _GET_player i w : _GET ("/players/" ++ escape i)%string w = (Ret (players w !! i), w).
Proof. unfold _GET. rewrite keys_of_player. reflexivity. Qed.

Lemma assign_no_profile p : assign no_profile p = p.
Proof. destruct p as [? ? ? ? ? ? ? ? ? ? ? ? ? ?]. unfold assign, over; cbn.
  repeat match goal with |- context [match ?x with Some _ => _ | None => _ end] => destruct x end;
  reflexivity.
Qed.

Lemma _registerPlayer_stores p a r w :
  id p = Some (String a r) ->
  let tree := <[registered_id (String a r) := p]> (players w) in
  _registerPlayer p w = (Ret (Some p), World tree tree (journal w ++ [Committed]) (draws w)).
Proof.
  intros Hid tree. unfold _registerPlayer. rewrite Hid.
  unfold bind, catch. cbn [applyPatch]. rewrite replace_player.
  cbn [ret commit]. rewrite _GET_player. cbn [players set_players durable journal draws].
  rewrite assign_no_profile, lookup_insert_eq. reflexivity.
Qed.

Lemma ticks_journal ps d j n : ticks (World ps d j n) = count_ticks j.
Proof. reflexivity. Qed.

Lemma count_ticks_app j1 j2 : count_ticks (j1 ++ j2) = (count_ticks j1 + count_ticks j2)%nat.
Proof. unfold count_ticks. rewrite List.filter_app, length_app. reflexivity. Qed.

Lemma _registerPlayer_returns p w :
  exists r w', _registerPlayer p w = (Ret r, w') /\ ticks w' = ticks w.
Proof.
  destruct (id p) as [[|a r]|] eqn:Hid.
  - unfold _registerPlayer. rewrite Hid. cbn. eexists _, _. split; [reflexivity|].
    unfold ticks; cbn [journal]; rewrite count_ticks_app; cbn; lia.
  - rewrite (_registerPlayer_stores p a r w Hid). eexists _, _. split; [reflexivity|].
    unfold ticks; cbn [journal]; rewrite count_ticks_app; cbn; lia.
  - unfold _registerPlayer. rewrite Hid. cbn. eexists _, _. split; [reflexivity|].
    unfold ticks; cbn [journal]; rewrite count_ticks_app; cbn; lia.
Qed.

Section Enumeration.

Context (E : env).

Lemma members_loop_returns name s ms : forall acc w,
  exists r w', members_loop E name s ms acc w = (Ret r, w') /\
               ticks w' = ticks w /\
               (agent_id s ∈ ms -> r = None).
Proof.
  induction ms as [|m ms IH]; intros acc w.
  - cbn. eexists _, _. split; [reflexivity|]. split; [reflexivity|]. intros H. inversion H.
  - cbn [members_loop]. destruct (String.eqb_spec m (agent_id s)) as [->|Hm].
    + cbn. eauto.
    + unfold bind at 1. unfold catch at 1. unfold bind at 1.
      destruct (_getProfile_reads E (join "/" [name; "users"; m]) w) as (p & -> & _).
      cbn [ret]. unfold bind at 1. unfold catch at 1.
      destruct (_registerPlayer_returns p w) as (r & w1 & -> & Ht1).
      assert (Hin : forall r' : option (list profile),
                (agent_id s ∈ ms -> r' = None) -> agent_id s ∈ m :: ms -> r' = None).
      { intros r' Hr' [?|?]%elem_of_cons; [congruence|auto]. }
      destruct r as [stored|].
      * unfold bind at 1.
        destruct (_getPresence s m) as [v|]; cbn [ret error emit bind];
          unfold bind at 1; destruct (shared E); cbn [ret];
          match goal with |- context [members_loop E name s ms ?a ?w0] =>
            destruct (IH a w0) as (r & w' & -> & Ht & Hr) end;
          eexists _, _; (split; [reflexivity|]); (split; [|auto]);
          rewrite Ht, <- Ht1; unfold ticks, set_players; cbn [journal]; rewrite ?count_ticks_app; cbn; lia.
      * destruct (IH acc w1) as (r & w' & -> & Ht & Hr).
        eexists _, _; (split; [reflexivity|]). split; [congruence|auto].
Qed.

Lemma channels_loop_returns name s chans : forall acc w,
  exists r w', channels_loop E name s chans acc w = (Ret r, w') /\
               ticks w' = ticks w /\
               ((exists c ms, c ∈ chans /\ _getMembers s c = Some ms /\ agent_id s ∈ ms) ->
                r = None).
Proof.
  induction chans as [|c chans IH]; intros acc w.
  - cbn. eexists _, _. split; [reflexivity|]. split; [reflexivity|].
    intros (c & ms & H & _). inversion H.
  - cbn [channels_loop]. unfold bind at 1.
    set (members := match _getMembers s c with Some ms => ret ms | None => ret [] end).
    assert (Hm : members w = (Ret (default [] (_getMembers s c)), w)).
    { subst members. destruct (_getMembers s c); reflexivity. }
    rewrite Hm. unfold bind at 1.
    destruct (members_loop_returns name s (default [] (_getMembers s c)) acc w)
      as (r & w1 & -> & Ht1 & Hr1).
    destruct r as [acc'|].
    + destruct (IH acc' w1) as (r & w' & -> & Ht & Hr).
      eexists _, _. split; [reflexivity|]. split; [congruence|].
      intros (c' & ms & [->|Hc]%elem_of_cons & Hms & Hag).
      * rewrite Hms in Hr1. cbn in Hr1. specialize (Hr1 Hag). discriminate.
      * apply Hr. eauto.
    + cbn. eexists _, _. split; [reflexivity|]. split; [exact Ht1|]. reflexivity.
Qed.

Lemma services_loop_returns ss : forall acc w,
  exists r w', services_loop E ss acc w = (Ret r, w') /\
               ticks w' = ticks w /\
               ((exists name s c ms, (name, s) ∈ ss /\ c ∈ channels E /\
                   _getMembers s c = Some ms /\ agent_id s ∈ ms) ->
                r = None).
Proof.
  induction ss as [|[name s] ss IH]; intros acc w.
  - cbn. eexists _, _. split; [reflexivity|]. split; [reflexivity|].
    intros (? & ? & ? & ? & H & _). inversion H.
  - cbn [services_loop]. unfold bind at 1.
    destruct (channels_loop_returns name s (channels E) acc w) as (r & w1 & -> & Ht1 & Hr1).
    destruct r as [acc'|].
    + destruct (IH acc' w1) as (r & w' & -> & Ht & Hr).
      eexists _, _. split; [reflexivity|]. split; [congruence|].
      intros (name' & s' & c & ms & [Heq|Hs]%elem_of_cons & Hc & Hms & Hag).
      * injection Heq as -> ->. 
        assert (Some acc' = None) by (apply Hr1; eauto). discriminate.
      * apply Hr. eauto 8.
    + cbn. eexists _, _. split; [reflexivity|]. split; [exact Ht1|]. reflexivity.
Qed.

End Enumeration.

Section Ticks.

Context (E : env).

Lemma _getPlayers_returns w :
  exists r w', _getPlayers E w = (Ret r, w') /\ ticks w' = ticks w /\
    ((exists name s c ms, (name, s) ∈ services E /\ c ∈ channels E /\
         _getMembers s c = Some ms /\ agent_id s ∈ ms) -> r = None).
Proof. apply services_loop_returns. Qed.

Lemma _getActivePlayers_quiet w : ticks (snd (_getActivePlayers E w)) = ticks w.
Proof.
  unfold _getActivePlayers, bind.
  destruct (_getPlayers_returns w) as (r & w' & -> & Ht & _).
  destruct r; exact Ht.
Qed.

(** C7. A tick whose list of active players is empty, or whose fetch of
    the active players fails, returns without throwing and emits the
    tick-complete signal exactly once: the journal holds one more
    [Ticked] than before, and the tree is as the fetch left it. *)
Theorem tick_without_players (w : world) :
  fst (_getActivePlayers E w) = Ret [] \/ (exists e, fst (_getActivePlayers E w) = Throw e) ->
  exists w',
    tick E w = (Ret tt, w') /\
    ticks w' = S (ticks w) /\
    players w' = players (snd (_getActivePlayers E w)).
Proof.
  intros H. pose proof (_getActivePlayers_quiet w) as Hq.
  unfold tick, bind, catch.
  destruct (_getActivePlayers E w) as [o w1]. cbn [fst snd] in *.
  destruct H as [-> | [e ->]].
  - cbn. eexists. split; [reflexivity|]. split; [|reflexivity].
    unfold ticks in *. cbn [journal]. rewrite count_ticks_app, Hq. cbn. lia.
  - cbn. eexists. split; [reflexivity|]. split; [|reflexivity].
    unfold ticks in *. cbn [journal]. rewrite !count_ticks_app, Hq. cbn. lia.
Qed.

(** C9. When the agent's own id is among the members of a monitored
    channel, [_getPlayers] returns [undefined] instead of a list: the
    members before the agent are dropped with those after it.  The fetch
    of the active players then throws, so does each of the three list
    handlers, and the tick computes no round. *)
Theorem agent_among_members_ends_enumeration (w : world) :
  (exists name s c ms, (name, s) ∈ services E /\ c ∈ channels E /\
      _getMembers s c = Some ms /\ agent_id s ∈ ms) ->
  exists w1,
    _getPlayers E w = (Ret None, w1) /\
    _getActivePlayers E w = (Throw TypeError, w1) /\
    _handleOnlineRequest E w = (Throw TypeError, w1) /\
    _handleMemberlistRequest E w = (Throw TypeError, w1) /\
    _handleLeaderboardRequest E w = (Throw TypeError, w1) /\
    tick E w =
      (Ret tt,
       World (players w1) (durable w1)
             (journal w1 ++ [Failure "Could not get active players:"; Ticked])
             (draws w1)).
Proof.
  intros H. destruct (_getPlayers_returns w) as (r & w1 & Hg & _ & Hr).
  rewrite (Hr H) in Hg. clear Hr. exists w1.
  assert (Ha : _getActivePlayers E w = (Throw TypeError, w1)).
  { unfold _getActivePlayers, bind. rewrite Hg. reflexivity. }
  repeat split.
  - exact Hg.
  - exact Ha.
  - unfold _handleOnlineRequest, bind. rewrite Ha. reflexivity.
  - unfold _handleMemberlistRequest, bind. rewrite Hg. reflexivity.
  - unfold _handleLeaderboardRequest, bind. rewrite Hg. reflexivity.
  - unfold tick, bind, catch. rewrite Ha. cbn. unfold emit. cbn. rewrite <- app_assoc. reflexivity.
Qed.

End Ticks.

(** ** The reward *)


Lemma reward_config_irrelevant E capital xp player :
  reward (with_rates capital xp E) player = reward E player.
Proof. reflexivity. Qed.



(** ** Integer arithmetic of the handler *)

Lemma Qred_inject_Z z d : d = 1%positive -> Qred (z # d) = inject_Z z.
Proof. intros ->. apply Qred_identity. cbn. apply Z.gcd_1_r. Qed.

Lemma nsub_of_Z a b : nsub (of_Z a) (of_Z b) = of_Z (a - b).
Proof.
  unfold nsub, of_Z. f_equal. unfold Qminus, Qplus, Qopp, inject_Z. cbn [Qnum Qden].
  rewrite Qred_inject_Z by reflexivity. unfold inject_Z. f_equal. lia.
Qed.

Lemma nadd_of_Z a b : nadd (of_Z a) (of_Z b) = of_Z (a + b).
Proof.
  unfold nadd, of_Z. f_equal. unfold Qplus, inject_Z. cbn [Qnum Qden].
  rewrite Qred_inject_Z by reflexivity. unfold inject_Z. f_equal. lia.
Qed.

Lemma parseInt_num_of_Z a : parseInt_num (of_Z a) = of_Z a.
Proof. unfold parseInt_num, of_Z, inject_Z. cbn [Qnum Qden]. rewrite Z.quot_1_r. reflexivity. Qed.

Lemma truthy_of_Z a : truthy (of_Z a) = negb (a =? 0)%Z.
Proof.
  unfold truthy, of_Z, Qeq_bool, inject_Z. cbn [Qnum Qden]. f_equal.
  rewrite Z.mul_1_r. reflexivity.
Qed.

Lemma nlt_of_Z a b : nlt (of_Z a) (of_Z b) = (a <? b)%Z.
Proof.
  unfold nlt, of_Z, Qle_bool, inject_Z. cbn [Qnum Qden]. rewrite !Z.mul_1_r.
  rewrite Z.ltb_antisym. reflexivity.
Qed.

(** ** Transfers between two filed players *)

Lemma falsy_Str s : s <> "" -> falsy (Str s) = false.
Proof. intros H. cbn. destruct (String.eqb_spec s ""); [contradiction|reflexivity]. Qed.

(** What the handler does guarantee: between two different players filed
    under their ids, with whole balances and a whole amount from 0 up to
    the actor's balance, the transfer succeeds, the amount moves from the
    one to the other, and no balance becomes negative. *)
Theorem transfer_between_filed_players
    (E : env) (w : world) (a o cmd amt tok svc : string) (tgt : option string)
    (pa pt : profile) (ia it : string) (x y n : Z) :
  o <> "" -> a <> "" ->
  split " " o = [cmd; amt; tok] ->
  split "/" a !! 2%nat <> Some tok ->
  _getProfile E a w = (Ret pa, w) ->
  _getProfile E (svc ++ "/users/" ++ tok)%string w = (Ret pt, w) ->
  id pa = Some ia -> id pt = Some it -> ia <> it ->
  ia <> "" -> it <> "" ->
  registered_id ia = ia -> registered_id it = it ->
  wealth pa = Some (of_Z x) -> wealth pt = Some (of_Z y) ->
  parseInt amt = of_Z n ->
  (0 <= n <= x)%Z -> (0 < x)%Z -> (0 <= y)%Z ->
  exists w',
    _handleTransferRequest E (MkMessage (Str a) (Str o) tgt (Some svc)) w
      = (Ret Transferred, w') /\
    wealth_of ia w' = Some (of_Z (x - n)) /\
    wealth_of it w' = Some (of_Z (y + n)) /\
    (x - n + (y + n) = x + y)%Z /\ (0 <= x - n)%Z /\ (0 <= y + n)%Z.
Proof.
  intros Ho Ha Hparts Hself Hpa Hpt Hia Hit Hne Hia0 Hit0 Hra Hrt Hx Hy Hn Hrange Hpos Hy0.
  unfold _handleTransferRequest. cbn [object actor origin].
  rewrite (falsy_Str o Ho), (falsy_Str a Ha), Hparts. cbn [length Nat.eqb negb].
  rewrite bool_decide_eq_false_2 by exact Hself.
  cbn [nth]. rewrite (bind_run _ _ _ _ _ Hpa), (bind_run _ _ _ _ _ Hpt).
  rewrite Hia, Hit. cbn [pointer_escape]. unfold bind at 1 2. cbn [ret].
  rewrite Hx, Hy, Hn. cbn [to_number].
  rewrite !parseInt_num_of_Z, nsub_of_Z, nadd_of_Z, parseInt_num_of_Z, truthy_of_Z, nlt_of_Z.
  replace (x =? 0)%Z with false by (symmetry; apply Z.eqb_neq; lia).
  replace (x - n <? 0)%Z with false by (symmetry; apply Z.ltb_ge; lia).
  cbn [negb].
  destruct ia as [|ca ia']; [contradiction|]. destruct it as [|ct it']; [contradiction|].
  rewrite (bind_run _ _ _ _ _ (_registerPlayer_stores pa ca ia' w Hia)).
  rewrite (bind_run _ _ _ _ _ (_registerPlayer_stores pt ct it' _ Hit)).
  rewrite Hra, Hrt. cbn [players durable journal draws].
  unfold bind at 1. unfold catch. unfold bind at 1. cbn [applyPatch players].
  rewrite (replace_wealth _ (String ca ia') pa)
    by (rewrite lookup_insert_ne by congruence; apply lookup_insert_eq).
  cbn [set_players players durable journal draws].
  rewrite (replace_wealth _ (String ct it') pt)
    by (rewrite lookup_insert_ne by congruence; apply lookup_insert_eq).
  cbn. eexists. split; [reflexivity|]. unfold wealth_of. cbn [players].
  split; [|split; [|lia]].
  - rewrite lookup_insert_ne by congruence. rewrite lookup_insert_eq. reflexivity.
  - rewrite lookup_insert_eq. reflexivity.
Qed.

(** ** The transfer handler at particular requests *)

(** C1 (violated).  A successful transfer should conserve the wealth of
    the two players and leave no balance negative.  Alice, who owns 100,
    asks for a transfer of -50 to Bob, who owns nothing: the handler
    answers with the success message, Alice owns 150 and Bob -50. *)
Theorem transfer_negative_amount :
  let r := _handleTransferRequest village
             (transfer_message "local/users/alice" "!transfer -50 bob") bank in
  fst r = Ret Transferred /\
  wealth_of "local/users/alice" (snd r) = Some (of_Z 150) /\
  wealth_of "local/users/bob" (snd r) = Some (of_Z (-50)) /\
  nlt (of_Z (-50)) (of_Z 0) = true.
Proof. vm_compute. repeat split. Qed.

(** C2 (violated).  An amount that does not parse as an integer should
    be rejected without any mutation.  For the amount [abc], [parseInt]
    gives [NaN], which passes both wealth checks: the handler registers
    both players, patches both balances to [NaN], commits three times,
    whispers to the target and answers with the success message. *)
Theorem transfer_of_abc :
  let r := _handleTransferRequest village
             (transfer_message "local/users/alice" "!transfer abc bob") bank in
  parseInt "abc" = NaN /\
  fst r = Ret Transferred /\
  wealth_of "local/users/alice" (snd r) = Some NaN /\
  wealth_of "local/users/bob" (snd r) = Some NaN /\
  journal (snd r) =
    [Committed; Committed; Committed;
     Whisper (Some "local/users/bob") None (Some "local/users/alice") NaN].
Proof. vm_compute. repeat split. Qed.

(** C3 (violated).  A transfer to oneself should be rejected before any
    registration, patch or commit.  The actor [alice], an id of one piece,
    names the same player as the target [local/users/alice]; the id has no
    third piece to compare with the target, so the transfer goes through:
    the second operation of the patch overwrites the first, and Alice's
    100 become 130. *)
Theorem transfer_to_oneself :
  let r := _handleTransferRequest village (transfer_message "alice" "!transfer 30 alice") bank in
  fst (_getProfile village "alice" bank) = fst (_getProfile village "local/users/alice" bank) /\
  wealth_of "local/users/alice" bank = Some (of_Z 100) /\
  fst r = Ret Transferred /\
  wealth_of "local/users/alice" (snd r) = Some (of_Z 130) /\
  journal (snd r) =
    [Committed; Committed; Committed;
     Whisper (Some "local/users/alice") None (Some "local/users/alice") (of_Z 30)].
Proof. vm_compute. repeat split. Qed.

(** C5 (violated).  A round should take the per-tick constant off the
    cooldown of the player, not below 0.  Alice is online with a stored
    cooldown of 1000: the profile of the round carries no cooldown, so
    nothing is taken off, and the reward files that profile over the
    stored one, cooldown gone; after a whole tick the stored cooldown is
    gone as well.  The cooldown step itself has no floor: on a cooldown of
    5 it yields -5. *)
Theorem round_drops_cooldown :
  let alice := stored_player "local/users/alice" 0 None (Some "online") in
  let r := _computeRound village alice jail in
  cooldown_of "local/users/alice" jail = Some (of_Z 1000) /\
  (exists p, fst r = Ret (Some p) /\ cooldown p = None) /\
  cooldown_of "local/users/alice" (snd r) = None /\
  wealth_of "local/users/alice" (snd r) = Some (of_Z 10) /\
  cooldown_of "local/users/alice" (snd (tick village jail)) = None /\
  cooldown (relax village (stored_player "local/users/alice" 0 (Some (of_Z 5)) None))
    = Some (of_Z (-5)).
Proof. vm_compute. repeat split. eexists. split; reflexivity. Qed.

(** The profile of a round never carries a cooldown, whatever the store
    holds: the cooldown step leaves it as it is. *)
Lemma round_never_relaxes E i w :
  exists p, _getProfile E i w = (Ret p, w) /\ relax E p = p.
Proof.
  destruct (_getProfile_reads E i w) as (p & Hp & _ & Hc).
  exists p. split; [exact Hp|]. unfold relax. rewrite Hc. reflexivity.
Qed.

(** ** The penalty as its caller runs it *)

(** C6 (violated).  A penalty should be announced only when the cooldown
    the player had before the violation was below 100, and should set the
    cooldown and halve the wealth of every player.  Alice is filed with
    100 and serves any cooldown [c], 1000 included: the handler of her
    message hydrates her profile, which never carries a cooldown, so the
    test for a cooldown below 100 always holds and the announcement is
    made again, while the store goes to 1000 and 50.  Zed, who speaks
    without being filed, is not penalized at all: the first replace of
    the patch throws, and nothing is set, committed or announced. *)
Theorem penalize_announces_at_any_cooldown (c : option num) :
  let said := MkMessage (Str "local/users/alice") (Str "hello") (Some "idlerpg") (Some "local") in
  let w' := snd (_handleMessage village said (serving c)) in
  cooldown_of "local/users/alice" (serving c) = c /\
  journal w' = [Committed; Message "local/channels/idlerpg" (PeaceDisrupted None)] /\
  cooldown_of "local/users/alice" w' = Some (of_Z 1000) /\
  wealth_of "local/users/alice" w' = Some (of_Z 50) /\
  ~ cooldown_below_100 (Some (of_Z 1000)) /\
  penalize village (hydrated village "local/users/zed" (serving c)) (serving c)
    = (Throw TypeError, serving c).
Proof.
  intros said w'. subst said w'.
  split; [vm_compute; reflexivity|].
  split; [vm_compute; reflexivity|].
  split; [vm_compute; reflexivity|].
  split; [vm_compute; reflexivity|].
  split; [|vm_compute; reflexivity].
  cbn. intros H. apply Qlt_not_le in H. apply H. discriminate.
Qed.

(** ** The heartbeat *)

Section Overlap.

Context (E : env).

Lemma schedule_snoc turns t s :
  schedule E (turns ++ [t]) s = heartbeat E t (schedule E turns s).
Proof. unfold schedule. rewrite fold_left_app. reflexivity. Qed.

Lemma fires_in_a_row n s :
  running (schedule E (repeat Fire n) s)
    = running s ++ map (fun k => Ticking (started s + k) Fetching) (seq 0 n)
  /\ now (schedule E (repeat Fire n) s) = now s
  /\ started (schedule E (repeat Fire n) s) = (started s + n)%nat.
Proof.
  induction n as [|n (IHr & IHn & IHs)].
  - cbn. rewrite app_nil_r. auto with arith.
  - replace (repeat Fire (S n)) with (repeat Fire n ++ [Fire])
      by (rewrite <- repeat_cons; reflexivity).
    rewrite schedule_snoc. cbn [heartbeat fire running now started].
    rewrite IHr, IHn, IHs. repeat split; [|lia].
    rewrite seq_S, map_app, app_assoc. reflexivity.
Qed.

(** The rounds of a tick, run one after the other with nothing in
    between, are the loop of [tick]. *)
Lemma finish_rounds p l w :
  finish E (S (length l)) (Rounds (p :: l)) w = (rounds E (p :: l) ;;; emit Ticked) w.
Proof.
  revert p w. induction l as [|q l IH]; intros p w.
  - cbn [length finish resume rounds]. rewrite !bind_assoc. apply bind_ext.
    intros _ w1. reflexivity.
  - cbn [length]. cbn [finish]. cbn [resume rounds]. rewrite !bind_assoc.
    apply bind_ext. intros _ w1.
    change (finish E (S (length l)) (Rounds (q :: l)) w1
            = (rounds E (q :: l) ;;; emit Ticked) w1).
    apply IH.
Qed.

Lemma tick_in_turns w : exists n, finish E n Fetching w = tick E w.
Proof.
  destruct (catch (_getActivePlayers E)
              (fun _ => error "Could not get active players:" ;;; ret []) w)
    as [[l|e] w1] eqn:Hf.
  - exists (S (length l)). cbn [finish]. cbn [resume]. unfold tick.
    rewrite bind_assoc, !(bind_run _ _ _ _ _ Hf).
    destruct l as [|p l]; [reflexivity|]. apply finish_rounds.
  - exists 1%nat. cbn [finish resume]. unfold tick.
    rewrite bind_assoc, !(bind_throw _ _ _ _ _ Hf). reflexivity.
Qed.

End Overlap.

(** C8, as the code has it.  The timer starts a tick every time it fires,
    whatever is in progress: nothing suppresses or queues it.  After [n]
    firings in a row, [n] ticks are in progress at once, none of which has
    touched the world yet. *)
Theorem ticks_overlap (E : env) (w : world) (n : nat) :
  (forall s, length (running (heartbeat E Fire s)) = S (length (running s))) /\
  length (running (schedule E (repeat Fire n) (started_process w))) = n /\
  now (schedule E (repeat Fire n) (started_process w)) = w.
Proof.
  split; [|split].
  - intros s. cbn. rewrite length_app. cbn. lia.
  - destruct (fires_in_a_row E n (started_process w)) as (-> & _).
    cbn. rewrite length_map, length_seq. reflexivity.
  - destruct (fires_in_a_row E n (started_process w)) as (_ & -> & _). reflexivity.
Qed.

(** C8 (as stated, refuted).  Two firings of the timer in a row leave
    two ticks in progress; and with the turns below, the rounds of the
    first and the second tick alternate. *)
Lemma two_ticks_interleave :
  ~ never_concurrent village nobody /\
  (let s := schedule village [Fire; Resume 0; Fire; Resume 1; Resume 0; Resume 1; Resume 0]
              (started_process nobody) in
   computed s = [(0, Some "local/users/alice"); (1, Some "local/users/alice");
                 (0, Some "local/users/bob")]%nat /\
   map tick_number (running s) = [1%nat]).
Proof.
  split.
  - intros H. specialize (H [Fire; Fire]). vm_compute in H. lia.
  - vm_compute. split; reflexivity.
Qed.

(** * Instances *)

(** A message of Alice in the monitored channel while she serves a
    cooldown of 1000: the profile handed to [penalize] is a hydrated one,
    without cooldown, and the announcement is made again. *)
Lemma offender_announced_again :
  let m := MkMessage (Str "local/users/alice") (Str "hello") (Some "idlerpg") (Some "local") in
  cooldown_of "local/users/alice" jail = Some (of_Z 1000) /\
  journal (snd (_handleMessage village m jail)) =
    [Committed; Message "local/channels/idlerpg" (PeaceDisrupted None)].
Proof. vm_compute. split; reflexivity. Qed.

(** With an actor id of three pieces the guard does reject the transfer
    to oneself, and nothing happens. *)
Lemma self_transfer_of_full_id :
  _handleTransferRequest village
    (transfer_message "local/users/alice" "!transfer 30 alice") bank =
  (Ret SelfTransfer, bank).
Proof. vm_compute. reflexivity. Qed.

(** The transfer of the specification's scenario, 30 out of 100, as an
    instance of the general statement. *)
Lemma transfer_between_filed_players_sample :
  exists w',
    _handleTransferRequest village
      (transfer_message "local/users/alice" "!transfer 30 bob") bank = (Ret Transferred, w') /\
    wealth_of "local/users/alice" w' = Some (of_Z 70) /\
    wealth_of "local/users/bob" w' = Some (of_Z 30).
Proof.
  pose proof (transfer_between_filed_players village bank
                "local/users/alice" "!transfer 30 bob" "!transfer" "30" "bob" "local" None
                (hydrated village "local/users/alice" bank)
                (hydrated village "local/users/bob" bank)
                "local/users/alice" "local/users/bob" 100 0 30) as H.
  repeat match type of H with
         | ?P -> _ =>
             let h := fresh in
             assert (h : P)
               by first [lia | discriminate | (vm_compute; reflexivity) | (vm_compute; congruence)];
             specialize (H h); clear h
         end.
  destruct H as (w' & H & Ha & Hb & _). exists w'. auto.
Qed.

(** The transfer of the specification's scenario: 30 out of 100. *)
Lemma transfer_of_30 :
  let r := _handleTransferRequest village
             (transfer_message "local/users/alice" "!transfer 30 bob") bank in
  fst r = Ret Transferred /\
  wealth_of "local/users/alice" (snd r) = Some (of_Z 70) /\
  wealth_of "local/users/bob" (snd r) = Some (of_Z 30).
Proof. vm_compute. repeat split. Qed.

Lemma getProfile_twice_sample :
  exists p, (a <- _getProfile village "alice" ;; b <- _getProfile village "alice" ;; ret (a, b)) bank
            = (Ret (p, p), bank) /\ wealth p = Some (of_Z 100) /\ health p = Some (of_Z 100).
Proof. eexists. vm_compute. repeat split. Qed.

Lemma penalize_slashes_witness :
  let alice := stored_player "local/users/alice" 100 None None in
  id alice = Some "local/users/alice" /\
  players bank !! "local/users/alice" = Some alice /\
  exists w', penalize village alice bank = (Ret (stored_player "local/users/alice" 50 (Some (of_Z 1000)) None), w') /\
             wealth_of "local/users/alice" w' = Some (of_Z 50) /\
             cooldown_of "local/users/alice" w' = Some (of_Z 1000).
Proof.
  intros alice. split; [reflexivity|]. split; [vm_compute; reflexivity|].
  destruct (penalize_slashes village alice "local/users/alice" alice bank)
    as (announced & Ha & _ & H); [reflexivity|vm_compute; reflexivity|].
  eexists. split; [rewrite H; vm_compute; reflexivity|]. split; vm_compute; reflexivity.
Defined.

Lemma tick_without_players_witness :
  fst (_getActivePlayers desert nobody) = Ret [] /\
  exists w', tick desert nobody = (Ret tt, w') /\ ticks w' = 1%nat /\
             players w' = players (snd (_getActivePlayers desert nobody)).
Proof.
  split; [reflexivity|].
  apply (tick_without_players desert nobody). left. reflexivity.
Defined.

Lemma tick_after_failed_fetch :
  fst (_getActivePlayers haunted nobody) = Throw TypeError /\
  fst (tick haunted nobody) = Ret tt /\
  ticks (snd (tick haunted nobody)) = 1%nat.
Proof. vm_compute. repeat split. Qed.

Lemma agent_among_members_ends_enumeration_witness :
  agent_id chat_with_agent ∈ ["alice"; "bot"; "bob"] /\
  exists w1, _getPlayers haunted nobody = (Ret None, w1) /\
             _getActivePlayers haunted nobody = (Throw TypeError, w1) /\
             _handleOnlineRequest haunted nobody = (Throw TypeError, w1) /\
             _handleMemberlistRequest haunted nobody = (Throw TypeError, w1) /\
             _handleLeaderboardRequest haunted nobody = (Throw TypeError, w1) /\
             tick haunted nobody =
               (Ret tt,
                World (players w1) (durable w1)
                  (journal w1 ++ [Failure "Could not get active players:"; Ticked])
                  (draws w1)).
Proof.
  assert (Hin : agent_id chat_with_agent ∈ ["alice"; "bot"; "bob"])
    by (right; left).
  split; [exact Hin|].
  apply (agent_among_members_ends_enumeration haunted nobody).
  exists "local", chat_with_agent, "idlerpg", ["alice"; "bot"; "bob"].
  split; [left|]. split; [left|]. split; [reflexivity|exact Hin].
Defined.

(** * Further facts *)

(** ** Paths and ids *)

Lemma split_nonempty sep s : split sep s <> [].
Proof.
  destruct s as [|c r]; cbn [split]; [discriminate|].
  destruct (Ascii.eqb c sep); [discriminate|]. destruct (split sep r); discriminate.
Qed.

Lemma concat_cons_cons sep (x y : string) l :
  String.concat sep (x :: y :: l) = (x ++ sep ++ String.concat sep (y :: l))%string.
Proof. reflexivity. Qed.

Lemma join_split s : join "/" (split "/" s) = s.
Proof.
  unfold join. induction s as [|c r IH]; [reflexivity|].
  cbn [split]. destruct (Ascii.eqb_spec c "/") as [->|Hc].
  - destruct (split "/" r) as [|h t] eqn:Hs; [exfalso; exact (split_nonempty _ _ Hs)|].
    rewrite concat_cons_cons, IH. reflexivity.
  - destruct (split "/" r) as [|h t] eqn:Hs; [exfalso; exact (split_nonempty _ _ Hs)|].
    destruct t as [|h' t'].
    + cbn in IH. cbn. congruence.
    + rewrite concat_cons_cons in *. rewrite append_cons. congruence.
Qed.

Lemma split_pieces_free sep s : Forall (fun x => free_of sep x = true) (split sep s).
Proof.
  induction s as [|c r IH]; [repeat constructor|].
  cbn [split]. destruct (Ascii.eqb_spec c sep) as [->|Hc].
  - constructor; [reflexivity|exact IH].
  - destruct (split sep r) as [|h t]; [repeat constructor|].
    + cbn. destruct (Ascii.eqb_spec c sep); [contradiction|reflexivity].
    + inversion IH; subst. constructor; [|assumption].
      cbn. destruct (Ascii.eqb_spec c sep); [contradiction|]. assumption.
Qed.

Lemma free_split_length i : free_of "/" i = true -> split "/" i = [i].
Proof. apply split_free. Qed.

Lemma slash_split_length i : free_of "/" i = false -> (length (split "/" i) =? 1)%nat = false.
Proof.
  induction i as [|c r IH]; [intros H; discriminate H|]. cbn [free_of split].
  destruct (Ascii.eqb_spec c "/") as [->|Hc].
  - intros _. pose proof (split_nonempty "/" r). destruct (split "/" r); [contradiction|reflexivity].
  - cbn [negb andb]. intros H. specialize (IH H). pose proof (split_nonempty "/" r).
    destruct (split "/" r) as [|h t]; [contradiction|]. exact IH.
Qed.

Lemma canonical_free i : free_of "/" i = true -> canonical i = ("local/users/" ++ i)%string.
Proof. intros H. unfold canonical. rewrite (split_free _ _ H). reflexivity. Qed.

Lemma canonical_slash i : free_of "/" i = false -> canonical i = i.
Proof. intros H. unfold canonical. rewrite (slash_split_length _ H). apply join_split. Qed.

Lemma _getProfile_frame E i w w' :
  players w !! canonical i = players w' !! canonical i ->
  fst (_getProfile E i w) = fst (_getProfile E i w').
Proof.
  intros Hsame. unfold _getProfile, bind.
  change (join "/" (if (length (split "/" i) =? 1)%nat then ["local"; "users"; i] else split "/" i))
    with (canonical i).
  rewrite !_GET_player, Hsame. reflexivity.
Qed.

(** X1. [_getProfile] reads one entry of the store, the one under the
    canonical path of the id: [local/users/<id>] for an id without slash,
    the id itself otherwise.  Two stores that agree on that entry give the
    same profile, and an id without slash hydrates like its canonical
    form. *)
Theorem getProfile_reads_canonical_entry (E : env) (i : string) (w w' : world) :
  players w !! canonical i = players w' !! canonical i ->
  fst (_getProfile E i w) = fst (_getProfile E i w') /\
  fst (_getProfile E (canonical i) w) = fst (_getProfile E i w) /\
  (free_of "/" i = true -> canonical i = ("local/users/" ++ i)%string) /\
  (free_of "/" i = false -> canonical i = i).
Proof.
  intros Hsame. split; [exact (_getProfile_frame E i w w' Hsame)|].
  split; [|split; [apply canonical_free|apply canonical_slash]].
  destruct (free_of "/" i) eqn:Hf.
  - rewrite (canonical_free _ Hf). unfold _getProfile.
    rewrite (split_free _ _ Hf).
    change ("local/users/" ++ i)%string with ("local" ++ String "/" ("users" ++ String "/" i))%string.
    rewrite !split_app by reflexivity. rewrite (split_free _ _ Hf). reflexivity.
  - rewrite (canonical_slash _ Hf). reflexivity.
Qed.

(** ** Where the registry files a player *)

Lemma split3 a b c :
  free_of "/" a = true -> free_of "/" b = true -> free_of "/" c = true ->
  split "/" (a ++ "/" ++ b ++ "/" ++ c)%string = [a; b; c].
Proof.
  intros Ha Hb Hc.
  change (a ++ "/" ++ b ++ "/" ++ c)%string with (a ++ String "/" (b ++ String "/" c))%string.
  rewrite !split_app by assumption. rewrite split_free by assumption. reflexivity.
Qed.

Lemma registered_id_free i :
  free_of "/" i = true -> registered_id i = "local/users/[object Object]".
Proof. intros H. unfold registered_id. rewrite (split_free _ _ H). reflexivity. Qed.

Lemma registered_id_three s k n :
  free_of "/" s = true -> free_of "/" k = true -> free_of "/" n = true ->
  registered_id (s ++ "/" ++ k ++ "/" ++ n)%string = (s ++ "/users/" ++ n)%string.
Proof. intros Hs Hk Hn. unfold registered_id. rewrite split3 by assumption. reflexivity. Qed.

Lemma canonical_three s k n :
  free_of "/" s = true -> free_of "/" k = true -> free_of "/" n = true ->
  canonical (s ++ "/" ++ k ++ "/" ++ n)%string = (s ++ "/" ++ k ++ "/" ++ n)%string.
Proof. intros Hs Hk Hn. unfold canonical. rewrite split3 by assumption. reflexivity. Qed.

Lemma three_pieces_inj s k k' n :
  free_of "/" s = true -> free_of "/" k = true -> free_of "/" k' = true ->
  free_of "/" n = true ->
  (s ++ "/" ++ k ++ "/" ++ n)%string = (s ++ "/" ++ k' ++ "/" ++ n)%string -> k = k'.
Proof.
  intros Hs Hk Hk' Hn Heq. apply (f_equal (split "/")) in Heq.
  rewrite !split3 in Heq by assumption. congruence.
Qed.

Lemma append_inj_l (p a b : string) : (p ++ a)%string = (p ++ b)%string -> a = b.
Proof. induction p as [|c p IH]; [auto|]. rewrite !append_cons. intros H. injection H. exact IH. Qed.

(** X2. [_registerPlayer] files a copy of a player with an id under one
    key and touches no other entry; the tree is committed and the stored
    value returned.  The key is built from the first and the third piece of
    the id around [users]: [s/users/n] for an id [s/k/n], whatever the kind
    [k], and for an id of one piece always [local/users/[object Object]]. *)
Theorem registerPlayer_files_one_entry (p : profile) (i : string) (w : world) :
  id p = Some i -> i <> "" ->
  exists w',
    _registerPlayer p w = (Ret (Some p), w') /\
    players w' !! registered_id i = Some p /\
    (forall k, k <> registered_id i -> players w' !! k = players w !! k) /\
    durable w' = players w' /\
    journal w' = journal w ++ [Committed] /\
    (free_of "/" i = true -> registered_id i = "local/users/[object Object]") /\
    (forall s k n, free_of "/" s = true -> free_of "/" k = true -> free_of "/" n = true ->
       i = (s ++ "/" ++ k ++ "/" ++ n)%string -> registered_id i = (s ++ "/users/" ++ n)%string).
Proof.
  intros Hid Hne. destruct i as [|c i']; [contradiction|].
  rewrite (_registerPlayer_stores p c i' w Hid). eexists. split; [reflexivity|].
  cbn [players durable journal]. split; [apply lookup_insert_eq|].
  split; [intros k Hk; apply lookup_insert_ne; congruence|].
  split; [reflexivity|]. split; [reflexivity|].
  split; [apply registered_id_free|].
  intros s k n Hs Hk Hn ->. apply registered_id_three; assumption.
Qed.

(** X3. A player registered under an id of one piece cannot be found
    again: the entry goes to [local/users/[object Object]], where the next
    such player overwrites it, while [_getProfile] of the id reads
    [local/users/<id>] and returns what it returned before. *)
Theorem one_piece_id_is_lost (E : env) (p q : profile) (a b : string) (w : world) :
  id p = Some a -> id q = Some b ->
  a <> "" -> b <> "" -> a <> "[object Object]" ->
  free_of "/" a = true -> free_of "/" b = true ->
  let w1 := snd (_registerPlayer p w) in
  let w2 := snd (_registerPlayer q w1) in
  players w1 = <["local/users/[object Object]" := p]> (players w) /\
  players w2 = <["local/users/[object Object]" := q]> (players w) /\
  fst (_getProfile E a w1) = fst (_getProfile E a w) /\
  fst (_getProfile E a w2) = fst (_getProfile E a w).
Proof.
  intros Hp Hq Ha Hb Hobj Hfa Hfb w1 w2. subst w1 w2.
  destruct a as [|ca a']; [contradiction|]. destruct b as [|cb b']; [contradiction|].
  rewrite (_registerPlayer_stores p ca a' w Hp). cbn [snd].
  rewrite (_registerPlayer_stores q cb b' _ Hq). cbn [snd players].
  rewrite !registered_id_free by assumption. rewrite insert_insert_eq.
  assert (Hkey : canonical (String ca a') <> "local/users/[object Object]").
  { rewrite canonical_free by assumption.
    change "local/users/[object Object]" with ("local/users/" ++ "[object Object]")%string.
    intros H. apply append_inj_l in H. contradiction. }
  split; [reflexivity|]. split; [reflexivity|].
  split; apply _getProfile_frame; cbn [players]; apply lookup_insert_ne; congruence.
Qed.

(** X4. For an id of three pieces [s/k/n] the registry and the hydration
    agree on the path exactly when the kind [k] is [users]: then
    [_getProfile] reads the entry [_registerPlayer] wrote; otherwise the
    registration goes to [s/users/n] and the entry [_getProfile] reads is
    the one that was there before. *)
Theorem registry_and_hydration_paths (p : profile) (s k n : string) (w : world) :
  free_of "/" s = true -> free_of "/" k = true -> free_of "/" n = true ->
  id p = Some (s ++ "/" ++ k ++ "/" ++ n)%string ->
  let i := (s ++ "/" ++ k ++ "/" ++ n)%string in
  let w' := snd (_registerPlayer p w) in
  (k = "users" -> players w' !! canonical i = Some p) /\
  (k <> "users" -> players w' !! canonical i = players w !! canonical i).
Proof.
  intros Hs Hk Hn Hid i w'. subst w'.
  assert (Hi : exists c r, i = String c r).
  { subst i. destruct s as [|c r]; cbn; eauto. }
  destruct Hi as (c & r & Hi). fold i in Hid. rewrite Hi in Hid.
  rewrite (_registerPlayer_stores p c r w Hid). cbn [snd players]. rewrite <- Hi.
  subst i. rewrite registered_id_three, canonical_three by assumption. split.
  - intros ->. apply lookup_insert_eq.
  - intros Hne. apply lookup_insert_ne. intros Heq. apply Hne. symmetry.
    apply (three_pieces_inj s "users" k n); try assumption; reflexivity.
Qed.

(** ** Penalties and messages *)

Lemma replace_cooldown_missing ps i o n :
  ps !! i = None ->
  applyOperation (Operation o ("/players/" ++ escape i ++ "/cooldown")%string (VNum n)) ps
  = None.
Proof.
  intros H. unfold applyOperation. cbn [path value]. rewrite keys_of_cooldown.
  cbn. rewrite H. reflexivity.
Qed.

Lemma penalize_on_filed E player i stored w :
  id player = Some i ->
  players w !! i = Some stored ->
  let slashed := nmul (to_number (wealth player)) half in
  let tree := <[i := set_wealth (Some slashed) (set_cooldown (Some (of_Z 1000)) stored)]>
                (players w) in
  penalize E player w =
    (Ret (set_wealth (Some slashed) (set_cooldown (Some (of_Z 1000)) player)),
     World tree tree
       (journal w ++ Committed ::
          (if match cooldown player with
              | None => true
              | Some c => negb (truthy c) || nlt c (of_Z 100)
              end
           then announcement E (PeaceDisrupted (name player)) else []))
       (draws w)).
Proof.
  intros Hid Hstored slashed tree.
  unfold penalize. rewrite Hid. unfold pointer_escape, bind, ret.
  cbn [applyPatch].
  rewrite (replace_cooldown _ _ _ _ _ Hstored). cbn [set_players players].
  rewrite (replace_wealth _ i (set_cooldown (Some (of_Z 1000)) stored))
    by apply lookup_insert_eq.
  rewrite insert_insert_eq.
  unfold commit, announce, emit_all. cbn.
  destruct (cooldown player) as [c|]; [destruct (negb (truthy c) || nlt c (of_Z 100))|];
    cbn; rewrite <- ?app_assoc, ?app_nil_r; reflexivity.
Qed.

(** X5. [penalize] on a player who is not filed under the id of the
    object, or whose object has no id, throws a [TypeError] before
    anything happens: no patch, no commit, no announcement. *)
Theorem penalize_needs_a_filed_player (E : env) (player : profile) (w : world) :
  (id player = None -> penalize E player w = (Throw TypeError, w)) /\
  (forall i, id player = Some i -> players w !! i = None ->
     penalize E player w = (Throw TypeError, w)).
Proof.
  split.
  - intros Hid. unfold penalize. rewrite Hid. reflexivity.
  - intros i Hid Hnone. unfold penalize. rewrite Hid. unfold pointer_escape, bind, ret.
    cbn [applyPatch]. rewrite (replace_cooldown_missing _ _ _ _ Hnone). reflexivity.
Qed.

(** X6. A message outside the monitored channels is ignored.  A message
    in a monitored channel from a filed player is always punished with
    an announcement, whatever cooldown the store holds for the player:
    the stored cooldown becomes 1000, the stored wealth half of what
    [_getProfile] read, and the announcement follows the commit. *)
Theorem message_in_monitored_channel (E : env) (m : message) (a c i : string)
    (stored : profile) (w : world) :
  actor m = Str a -> target m = Some c ->
  id (hydrated E a w) = Some i ->
  players w !! i = Some stored ->
  (c ∉ channels E -> _handleMessage E m w = (Ret tt, w)) /\
  (c ∈ channels E ->
     let p := hydrated E a w in
     let slashed := nmul (to_number (wealth p)) half in
     let tree := <[i := set_wealth (Some slashed) (set_cooldown (Some (of_Z 1000)) stored)]>
                   (players w) in
     _handleMessage E m w =
       (Ret tt,
        World tree tree
          (journal w ++ Committed :: announcement E (PeaceDisrupted (name p))) (draws w))).
Proof.
  intros Ha Ht Hid Hstored. unfold _handleMessage. rewrite Ha, Ht.
  destruct (_getProfile_reads E a w) as (p & Hp & _ & Hcool).
  assert (Hh : hydrated E a w = p) by (unfold hydrated; rewrite Hp; reflexivity).
  rewrite Hh in *. split.
  - intros Hc. rewrite bool_decide_eq_false_2; [reflexivity|].
    rewrite Exists_exists. intros (x & Hx & Heq). injection Heq as ->. auto.
  - intros Hc. rewrite bool_decide_eq_true_2.
    + cbv zeta. rewrite (bind_run _ _ _ _ _ Hp).
      rewrite (bind_run _ _ _ _ _ (penalize_on_filed E p i stored w Hid Hstored)).
      rewrite Hcool. reflexivity.
    + rewrite Exists_exists. exists c. split; [exact Hc|reflexivity].
Qed.

(** ** Transfers that do not go through *)

Lemma transfer_tail_outcome actor_ target_ actorID targetID amount note w :
  let tail :=
    (_registerPlayer actor_ ;;;
     _registerPlayer target_ ;;;
     patched <- catch
         (applyPatch
            [Operation replace ("/players/" ++ actorID ++ "/wealth")%string
               (VNum (nsub (parseInt_num (to_number (wealth actor_)))
                           (parseInt_num amount)));
             Operation replace ("/players/" ++ targetID ++ "/wealth")%string
               (VNum (nadd (parseInt_num (to_number (wealth target_)))
                           (parseInt_num amount)))] ;;;
          ret true)
         (fun _ => error "could not serialize transaction:" ;;; ret false) ;;
     if patched then
       commit ;;;
       emit note ;;;
       ret Transferred
     else ret NotCompleted) in
  exists r w', tail w = (Ret r, w') /\ (r = Transferred \/ r = NotCompleted).
Proof.
  intros tail. subst tail.
  destruct (_registerPlayer_returns actor_ w) as (r1 & w1 & H1 & _).
  rewrite (bind_run _ _ _ _ _ H1).
  destruct (_registerPlayer_returns target_ w1) as (r2 & w2 & H2 & _).
  rewrite (bind_run _ _ _ _ _ H2).
  unfold bind at 1. unfold catch. unfold bind at 1.
  destruct (applyPatch _ w2) as [[[]|e] w3]; cbn; eauto.
Qed.

(** X7. Whenever the transfer handler answers anything but the success
    message or the not-completed message, or throws, the world is exactly
    as it was: no registration, no patch, no commit, no log entry. *)
Theorem transfer_rejection_changes_nothing (E : env) (m : message) (w : world) :
  fst (_handleTransferRequest E m w) <> Ret Transferred ->
  fst (_handleTransferRequest E m w) <> Ret NotCompleted ->
  snd (_handleTransferRequest E m w) = w.
Proof.
  destruct (_handleTransferRequest E m w) as [out w'] eqn:Hr. cbn [fst snd].
  intros H1 H2. unfold _handleTransferRequest in Hr.
  destruct (falsy (object m)); [injection Hr; auto|].
  destruct (falsy (actor m)); [injection Hr; auto|].
  destruct (object m) as [|o|?]; [injection Hr; auto| |injection Hr; auto].
  destruct (actor m) as [|a|?]; [injection Hr; auto| |injection Hr; auto].
  destruct (negb (length (split " " o) =? 3)%nat); [injection Hr; auto|].
  destruct (bool_decide _); [injection Hr; auto|].
  destruct (_getProfile_reads E a w) as (pa & Hpa & _).
  rewrite (bind_run _ _ _ _ _ Hpa) in Hr.
  destruct (origin m) as [svc|]; [|injection Hr; auto].
  match type of Hr with context [_getProfile E ?t] =>
    destruct (_getProfile_reads E t w) as (pt & Hpt & _) end.
  rewrite (bind_run _ _ _ _ _ Hpt) in Hr.
  destruct (id pa) as [ia|]; [|injection Hr; auto].
  destruct (id pt) as [it|]; [|injection Hr; auto].
  cbn [pointer_escape] in Hr. unfold bind at 1 2 in Hr. cbn [ret] in Hr.
  destruct (negb (truthy (to_number (wealth pa)))); [injection Hr; auto|].
  destruct (nlt _ _); [injection Hr; auto|].
  exfalso.
  destruct (transfer_tail_outcome pa pt (escape ia) (escape it)
              (parseInt (nth 1 (split " " o) ""))
              (Whisper (Some it) (name pa) (Some ia) (parseInt (nth 1 (split " " o) ""))) w)
    as (r & w'' & H & Hcase).
  cbv zeta in H. rewrite H in Hr. injection Hr as <- <-.
  destruct Hcase as [-> | ->]; [apply H1|apply H2]; reflexivity.
Qed.

Lemma hydrated_run E i w : _getProfile E i w = (Ret (hydrated E i w), w).
Proof.
  destruct (_getProfile_reads E i w) as (p & Hp & _). unfold hydrated. rewrite Hp. reflexivity.
Qed.

Lemma quot_le_m1 z : (z <= -2 -> z ÷ 2 <= -1)%Z.
Proof.
  intros H. pose proof (Z.quot_rem' z 2%Z) as Hq.
  pose proof (Z.rem_bound_abs z 2%Z ltac:(lia)) as Hr. lia.
Qed.

Lemma quot_nonneg z : (-2 < z -> 0 <= z ÷ 2)%Z.
Proof.
  intros H. destruct (Z.eq_dec z (-1)%Z) as [->|Hn]; [discriminate|].
  apply Z.quot_pos; lia.
Qed.

Lemma trunc_Qeq (a : Q) z d :
  (a == z # d)%Q -> (Qnum a ÷ Z.pos (Qden a) = z ÷ Z.pos d)%Z.
Proof.
  destruct a as [an ad]. unfold Qeq. cbn [Qnum Qden]. intros H.
  rewrite <- (Z.quot_mul_cancel_r an (Z.pos ad) (Z.pos d)) by lia.
  rewrite H, (Z.mul_comm (Z.pos ad)).
  apply Z.quot_mul_cancel_r; lia.
Qed.

Lemma parseInt_num_halves q h : (q == h # 2)%Q -> parseInt_num (Fin q) = of_Z (h ÷ 2).
Proof. intros H. unfold parseInt_num. rewrite (trunc_Qeq q h 2%positive H). reflexivity. Qed.

Lemma nsub_halves q h n :
  (q == h # 2)%Q -> exists d, nsub (Fin q) (of_Z n) = Fin d /\ (d == (h - 2 * n) # 2)%Q.
Proof.
  intros H. eexists. split; [reflexivity|]. rewrite Qred_correct, H.
  unfold Qeq, Qminus, Qplus, Qopp, inject_Z. cbn [Qnum Qden]. lia.
Qed.

Lemma truthy_halves q h : (q == h # 2)%Q -> (0 < h)%Z -> truthy (Fin q) = true.
Proof.
  intros H Hh. unfold truthy. destruct (Qeq_bool q 0) eqn:He; [|reflexivity].
  apply Qeq_bool_iff in He. rewrite He in H. unfold Qeq in H. cbn in H. lia.
Qed.

Lemma transfer_tail_debit actor_ target_ ca ia' ct it' amount note w :
  id actor_ = Some (String ca ia') -> id target_ = Some (String ct it') ->
  registered_id (String ca ia') = String ca ia' ->
  registered_id (String ct it') <> String ca ia' ->
  String ca ia' <> String ct it' ->
  let debit := nsub (parseInt_num (to_number (wealth actor_))) (parseInt_num amount) in
  let tail :=
    (_registerPlayer actor_ ;;;
     _registerPlayer target_ ;;;
     patched <- catch
         (applyPatch
            [Operation replace ("/players/" ++ escape (String ca ia') ++ "/wealth")%string
               (VNum debit);
             Operation replace ("/players/" ++ escape (String ct it') ++ "/wealth")%string
               (VNum (nadd (parseInt_num (to_number (wealth target_)))
                           (parseInt_num amount)))] ;;;
          ret true)
         (fun _ => error "could not serialize transaction:" ;;; ret false) ;;
     if patched then
       commit ;;;
       emit note ;;;
       ret Transferred
     else ret NotCompleted) in
  exists r w', tail w = (Ret r, w') /\ (r = Transferred \/ r = NotCompleted) /\
               wealth_of (String ca ia') w' = Some debit.
Proof.
  intros Hia Hit Hra Hrt Hne debit tail. subst tail.
  rewrite (bind_run _ _ _ _ _ (_registerPlayer_stores actor_ ca ia' w Hia)).
  rewrite (bind_run _ _ _ _ _ (_registerPlayer_stores target_ ct it' _ Hit)).
  rewrite Hra. remember (registered_id (String ct it')) as rt eqn:Hrt_def.
  cbn [players durable journal draws].
  unfold bind at 1. unfold catch. unfold bind at 1. cbn [applyPatch players].
  rewrite (replace_wealth _ (String ca ia') actor_)
    by (rewrite lookup_insert_ne by congruence; apply lookup_insert_eq).
  cbn [set_players players durable journal draws].
  match goal with
  | |- context [applyOperation ?op ?ps] =>
      destruct (ps !! String ct it') as [pt|] eqn:Hpt;
      [rewrite (replace_wealth ps (String ct it') pt _ _ Hpt)
      |rewrite (replace_wealth_missing ps (String ct it') _ _ Hpt)]
  end.
  - cbn. eexists _, _. split; [reflexivity|]. split; [left; reflexivity|].
    unfold wealth_of. cbn [players].
    rewrite lookup_insert_ne by congruence. rewrite lookup_insert_eq. reflexivity.
  - cbn. eexists _, _. split; [reflexivity|]. split; [right; reflexivity|].
    unfold wealth_of. cbn [players]. rewrite lookup_insert_eq. reflexivity.
Qed.

(** X8. The balance check of a transfer truncates towards zero.  For a
    balance of [h] halves (a whole balance, or one a penalty has halved)
    and a whole amount, both within the range where the numbers of the
    source are exact, the transfer is refused, with no change, exactly
    when the amount exceeds the balance by one or more, and the number
    the refusal carries is the truncated difference, a negative number.
    An amount that exceeds the balance by one half is not refused:
    [parseInt(-0.5)] is [-0], which is not below [0]; the transfer goes
    on, and between two filed players the actor is left with the
    truncated balance minus the amount, which is [-1]. *)
Theorem transfer_refusal_truncates
    (E : env) (w : world) (a o cmd amt tok svc : string) (tgt : option string)
    (ia it : string) (q : Q) (h n : Z) :
  o <> "" -> a <> "" ->
  split " " o = [cmd; amt; tok] ->
  split "/" a !! 2%nat <> Some tok ->
  id (hydrated E a w) = Some ia ->
  id (hydrated E (svc ++ "/users/" ++ tok)%string w) = Some it ->
  wealth (hydrated E a w) = Some (Fin q) -> (q == h # 2)%Q ->
  parseInt amt = of_Z n ->
  (0 < h < 2 ^ 52)%Z -> (- 2 ^ 52 < n < 2 ^ 52)%Z ->
  let request := MkMessage (Str a) (Str o) tgt (Some svc) in
  ((h - 2 * n <= -2)%Z ->
     _handleTransferRequest E request w
       = (Ret (Shortfall (of_Z ((h - 2 * n) ÷ 2))), w) /\
     ((h - 2 * n) ÷ 2 <= -1)%Z) /\
  ((-2 < h - 2 * n)%Z ->
     exists r w',
       _handleTransferRequest E request w = (Ret r, w') /\
       (r = Transferred \/ r = NotCompleted) /\
       (ia <> "" -> it <> "" -> ia <> it ->
        registered_id ia = ia -> registered_id it <> ia ->
        wealth_of ia w' = Some (of_Z (h ÷ 2 - n)))) /\
  ((h - 2 * n = -1)%Z -> (h ÷ 2 - n = -1)%Z).
Proof.
  intros Ho Ha Hparts Hself Hia Hit Hx Hq Hn Hh Hnr request. subst request.
  assert (Hstart :
    _handleTransferRequest E (MkMessage (Str a) (Str o) tgt (Some svc)) w =
    (if nlt (of_Z ((h - 2 * n) ÷ 2)) (of_Z 0)
     then ret (Shortfall (of_Z ((h - 2 * n) ÷ 2)))
     else
       _registerPlayer (hydrated E a w) ;;;
       _registerPlayer (hydrated E (svc ++ "/users/" ++ tok)%string w) ;;;
       patched <- catch
           (applyPatch
              [Operation replace ("/players/" ++ escape ia ++ "/wealth")%string
                 (VNum (nsub (parseInt_num (to_number (wealth (hydrated E a w))))
                             (parseInt_num (of_Z n))));
               Operation replace ("/players/" ++ escape it ++ "/wealth")%string
                 (VNum (nadd (parseInt_num
                                (to_number
                                   (wealth (hydrated E (svc ++ "/users/" ++ tok)%string w))))
                             (parseInt_num (of_Z n))))] ;;;
            ret true)
           (fun _ => error "could not serialize transaction:" ;;; ret false) ;;
       if patched then
         commit ;;;
         emit (Whisper (id (hydrated E (svc ++ "/users/" ++ tok)%string w))
                       (name (hydrated E a w)) (id (hydrated E a w)) (of_Z n)) ;;;
         ret Transferred
       else ret NotCompleted) w).
  { unfold _handleTransferRequest. cbn [object actor origin].
    rewrite (falsy_Str o Ho), (falsy_Str a Ha), Hparts. cbn [length Nat.eqb negb].
    rewrite bool_decide_eq_false_2 by exact Hself.
    cbn [nth]. rewrite (bind_run _ _ _ _ _ (hydrated_run E a w)).
    rewrite (bind_run _ _ _ _ _ (hydrated_run E _ w)).
    set (pa := hydrated E a w) in *.
    set (pt := hydrated E (svc ++ "/users/" ++ tok)%string w) in *.
    rewrite Hia, Hit. cbn [pointer_escape]. unfold bind at 1 2. cbn [ret].
    rewrite Hn, Hx. cbn [to_number].
    rewrite (truthy_halves q h Hq) by lia. cbn [negb].
    destruct (nsub_halves q h n Hq) as (d & -> & Hd).
    rewrite (parseInt_num_halves d _ Hd). reflexivity. }
  rewrite Hstart. rewrite nlt_of_Z. split; [|split].
  - intros Hlow. pose proof (quot_le_m1 _ Hlow) as Hm.
    replace ((h - 2 * n) ÷ 2 <? 0)%Z with true by (symmetry; apply Z.ltb_lt; lia).
    split; [reflexivity|exact Hm].
  - intros Hup. pose proof (quot_nonneg _ Hup) as Hm.
    replace ((h - 2 * n) ÷ 2 <? 0)%Z with false by (symmetry; apply Z.ltb_ge; lia).
    destruct (transfer_tail_outcome (hydrated E a w)
                (hydrated E (svc ++ "/users/" ++ tok)%string w) (escape ia) (escape it)
                (of_Z n)
                (Whisper (id (hydrated E (svc ++ "/users/" ++ tok)%string w))
                         (name (hydrated E a w)) (id (hydrated E a w)) (of_Z n)) w)
      as (r & w' & Hr & Hcase).
    exists r, w'. split; [exact Hr|]. split; [exact Hcase|].
    intros Hia0 Hit0 Hne Hra Hrt.
    destruct ia as [|ca ia']; [contradiction|]. destruct it as [|ct it']; [contradiction|].
    destruct (transfer_tail_debit (hydrated E a w)
                (hydrated E (svc ++ "/users/" ++ tok)%string w) ca ia' ct it'
                (of_Z n)
                (Whisper (id (hydrated E (svc ++ "/users/" ++ tok)%string w))
                         (name (hydrated E a w)) (id (hydrated E a w)) (of_Z n)) w
                Hia Hit Hra Hrt Hne)
      as (r2 & w2 & Hr2 & _ & Hw2).
    rewrite Hr in Hr2. injection Hr2 as <- <-.
    rewrite Hw2, Hx. cbn [to_number].
    rewrite (parseInt_num_halves q h Hq), parseInt_num_of_Z, nsub_of_Z. reflexivity.
  - intros Heq. assert (Hh2 : (h = 2 * (n - 1) + 1)%Z) by lia.
    pose proof (Z.quot_rem' h 2%Z) as Hqr.
    pose proof (Z.rem_bound_pos h 2%Z ltac:(lia) ltac:(lia)) as Hrb. lia.
Qed.


(** ** Rewards and rounds *)

Lemma no_tick_among_messages (f : string -> string) text cs :
  List.filter is_tick (map (fun c => Message (f c) text) cs) = [].
Proof. induction cs as [|c cs IH]; [reflexivity|exact IH]. Qed.

Lemma count_ticks_announcement E text : count_ticks (announcement E text) = 0%nat.
Proof.
  unfold announcement, count_ticks.
  induction (services E) as [|s ss IH]; [reflexivity|].
  cbn [flat_map]. rewrite List.filter_app, length_app, IH, no_tick_among_messages.
  reflexivity.
Qed.

Lemma announce_quiet E text w :
  ticks (snd (announce E text w)) = ticks w /\
  players (snd (announce E text w)) = players w /\
  durable (snd (announce E text w)) = durable w.
Proof.
  unfold announce, emit_all, ticks. cbn [snd journal players durable].
  rewrite count_ticks_app, count_ticks_announcement. repeat split. lia.
Qed.

Lemma _rollForEncounter_quiet E player w :
  exists r w', _rollForEncounter E player w = (Ret r, w') /\
    ticks w' = ticks w /\ players w' = players w /\ durable w' = durable w.
Proof.
  unfold _rollForEncounter, bind, draw.
  destruct (negb (Qle_bool (Config.luck (config E)) (random E (draws w))));
    [|cbn; eexists _, _; split; [reflexivity|]; repeat split].
  cbn [draws]. unfold bind.
  destruct (encounter_kind _) as [| | ? [|] [|] ?|];
    try (match goal with |- context [announce E ?t ?w0] =>
           pose proof (announce_quiet E t w0) as (Ht & Hp & Hd);
           destruct (announce E t w0) as [[[]|e] w1] eqn:Ha;
           [| unfold announce, emit_all in Ha; discriminate Ha] end;
         cbn [ret snd] in *; eexists _, _; split; [reflexivity|];
         repeat split; assumption).
  cbn. eexists _, _; split; [reflexivity|]; repeat split.
Qed.

(** What [reward] does, step by step. *)
Lemma reward_runs E player w :
  let merged := after_encounter E player w in
  exists w1,
    ticks w1 = ticks w /\ players w1 = players w /\ durable w1 = durable w /\
    let rewarded :=
      set_experience (Some (nadd (num_or (experience merged) (of_Z 0)) (of_Z 10)))
        (set_wealth (Some (nadd (num_or (wealth merged) (of_Z 0)) (of_Z 10))) merged) in
    match id merged with
    | Some i =>
        exists j,
          reward E player w =
            (Ret rewarded,
             World (<[i := rewarded]> (players w)) (<[i := rewarded]> (players w))
                   (j ++ [Committed]) (draws w1)) /\
          count_ticks j = ticks w
    | None =>
        exists w2, reward E player w = (Throw TypeError, w2) /\
                   ticks w2 = ticks w /\ players w2 = players w /\ durable w2 = durable w
    end.
Proof.
  destruct (_rollForEncounter_quiet E player w) as (r & w1 & Hr & Ht & Hp & Hd).
  assert (Hm : after_encounter E player w
               = match r with Some i0 => assign player i0 | None => player end).
  { unfold after_encounter. rewrite Hr. destruct r; reflexivity. }
  intros merged. subst merged. rewrite Hm. exists w1.
  split; [exact Ht|]. split; [exact Hp|]. split; [exact Hd|].
  set (m := match r with Some i0 => assign player i0 | None => player end).
  intros rewarded.
  unfold reward. rewrite (bind_run _ _ _ _ _ Hr). fold m.
  change (set_experience
            (Some (nadd (num_or (experience (set_wealth
                     (Some (nadd (num_or (wealth m) (of_Z 0)) PER_TICK_CAPITAL)) m))
                  (of_Z 0)) PER_TICK_EXPERIENCE))
            (set_wealth (Some (nadd (num_or (wealth m) (of_Z 0)) PER_TICK_CAPITAL)) m))
    with rewarded.
  assert (Hid : id rewarded = id m) by reflexivity.
  set (shout := if truthy (level E rewarded) && ngt (level E rewarded) (level E player)
                then announce E (LevelReached (name rewarded) (level E rewarded))
                else ret tt).
  assert (Hs : exists w2, shout w1 = (Ret tt, w2) /\ ticks w2 = ticks w1 /\
                          players w2 = players w1 /\ durable w2 = durable w1 /\
                          draws w2 = draws w1).
  { subst shout. destruct (truthy _ && ngt _ _).
    - eexists. split; [reflexivity|]. unfold ticks. cbn [snd journal players durable draws].
      rewrite count_ticks_app, count_ticks_announcement. repeat split. lia.
    - eexists. split; [reflexivity|]. repeat split. }
  destruct Hs as (w2 & Hs & Ht2 & Hp2 & Hd2 & Hdr2).
  rewrite (bind_run _ _ _ _ _ Hs). rewrite Hid.
  destruct (id m) as [i|].
  - cbn [pointer_escape]. unfold bind at 1. cbn [ret applyPatch]. unfold bind at 1.
    rewrite replace_player. cbn [set_players players durable journal draws ret].
    unfold bind at 1. unfold commit. cbn [players durable journal draws ret bind].
    exists (journal w2). unfold set_players. cbn [players durable journal draws].
    rewrite Hp2, Hp, Hdr2. split; [reflexivity|].
    unfold ticks in *. congruence.
  - cbn [pointer_escape]. exists w2. split; [reflexivity|].
    repeat split; congruence.
Qed.

Lemma num_or_zero_finite x : exists q, num_or x (of_Z 0) = Fin q.
Proof.
  unfold num_or. destruct x as [[|q]|]; cbn [truthy]; eauto.
  destruct (negb (Qeq_bool q 0)); eauto.
Qed.

(** X10. After a reward the player's wealth and experience are numbers,
    whatever they were before: a balance that was missing, [NaN] or [0]
    counts as [0] and becomes exactly 10.  The rewarded profile replaces
    the whole stored entry under the player's id, and the tree is
    committed. *)
Theorem reward_leaves_numbers (E : env) (player : profile) (w : world) (i : string) :
  id (after_encounter E player w) = Some i ->
  exists p' w' qw qx,
    reward E player w = (Ret p', w') /\
    wealth p' = Some (Fin qw) /\ experience p' = Some (Fin qx) /\
    (truthy (to_number (wealth (after_encounter E player w))) = false ->
     wealth p' = Some (of_Z 10)) /\
    players w' = <[i := p']> (players w) /\ durable w' = players w'.
Proof.
  intros Hid. destruct (reward_runs E player w) as (w1 & _ & _ & _ & H).
  cbv zeta in H. rewrite Hid in H. destruct H as (j & H & _).
  set (merged := after_encounter E player w) in *.
  destruct (num_or_zero_finite (wealth merged)) as [qw Hqw].
  destruct (num_or_zero_finite (experience merged)) as [qx Hqx].
  assert (Hten : truthy (to_number (wealth merged)) = false ->
                 nadd (num_or (wealth merged) (of_Z 0)) (of_Z 10) = of_Z 10).
  { intros Hfalsy. unfold num_or. destruct (wealth merged) as [n|]; [|reflexivity].
    cbn [to_number] in Hfalsy. rewrite Hfalsy. reflexivity. }
  eexists _, _, _, _. split; [exact H|].
  cbn [wealth experience set_wealth set_experience players durable].
  split; [rewrite Hqw; reflexivity|]. split; [rewrite Hqx; reflexivity|].
  split; [|split; reflexivity].
  intros Hfalsy. rewrite (Hten Hfalsy). reflexivity.
Qed.

(** X11. When the player has no id once the encounter is merged in,
    [reward] throws at the pointer: whatever the announcements so far,
    nothing is patched and nothing is committed. *)
Theorem reward_without_id_writes_nothing (E : env) (player : profile) (w : world) :
  id (after_encounter E player w) = None ->
  exists w', reward E player w = (Throw TypeError, w') /\
             players w' = players w /\ durable w' = durable w.
Proof.
  intros Hid. destruct (reward_runs E player w) as (w1 & _ & _ & _ & H).
  cbv zeta in H. rewrite Hid in H. destruct H as (w2 & H & _ & Hp & Hd). eauto.
Qed.

Lemma _computeRound_quiet E player w : ticks (snd (_computeRound E player w)) = ticks w.
Proof.
  unfold _computeRound. unfold bind at 1. unfold catch.
  destruct (id player) as [i|].
  - rewrite (bind_run _ _ _ _ _ (hydrated_run E i w)). cbn [ret].
    destruct (bool_decide _); [|reflexivity].
    unfold bind. destruct (reward_runs E (relax E (hydrated E i w)) w) as (w1 & _ & _ & _ & H).
    cbv zeta in H. destruct (id _) as [k|].
    + destruct H as (j & -> & Hj). unfold ticks. cbn -[count_ticks].
      rewrite count_ticks_app, Hj. cbn. unfold ticks. lia.
    + destruct H as (w2 & -> & Ht & _). exact Ht.
  - unfold ticks. cbn -[count_ticks]. rewrite count_ticks_app. cbn. lia.
Qed.

Lemma rounds_quiet E l : forall w, ticks (snd (rounds E l w)) = ticks w.
Proof.
  induction l as [|p l IH]; intros w; [reflexivity|].
  cbn [rounds]. unfold bind. pose proof (_computeRound_quiet E p w) as H.
  destruct (_computeRound E p w) as [[r|e] w1]; cbn [snd] in *; [|exact H].
  rewrite IH. exact H.
Qed.

(** X12. A round for a player whose stored presence is not [online]
    changes nothing at all: it returns the hydrated profile and leaves the
    world as it was, cooldown included. *)
Theorem round_of_absent_player_is_idle (E : env) (player : profile) (i : string) (w : world) :
  id player = Some i ->
  presence (hydrated E i w) <> Some "online" ->
  _computeRound E player w = (Ret (Some (hydrated E i w)), w).
Proof.
  intros Hid Hoff. unfold _computeRound. rewrite Hid. unfold bind at 1. unfold catch.
  rewrite (bind_run _ _ _ _ _ (hydrated_run E i w)). cbn [ret].
  destruct (_getProfile_reads E i w) as (p & Hp & _ & Hc).
  assert (Hh : hydrated E i w = p) by (unfold hydrated; rewrite Hp; reflexivity).
  rewrite Hh in *. unfold relax. rewrite Hc.
  rewrite bool_decide_eq_false_2 by exact Hoff. reflexivity.
Qed.

(** X13. A tick emits the tick-complete signal exactly once when it
    completes, as its last effect, and not at all when a round throws: the
    enumeration, the rounds and the rewards never emit it. *)
Theorem tick_signals_once_or_never (E : env) (w : world) :
  (exists w', tick E w = (Ret tt, w') /\ ticks w' = S (ticks w) /\
              last (journal w') = Some Ticked) \/
  (exists e w', tick E w = (Throw e, w') /\ ticks w' = ticks w).
Proof.
  assert (Hf : exists l w1,
             catch (_getActivePlayers E)
               (fun _ => error "Could not get active players:" ;;; ret []) w = (Ret l, w1)
             /\ ticks w1 = ticks w).
  { unfold catch. pose proof (_getActivePlayers_quiet E w) as Hq.
    destruct (_getActivePlayers E w) as [[l|e] w1]; cbn [snd] in Hq.
    - eauto.
    - cbn -[count_ticks]. eexists _, _. split; [reflexivity|]. unfold ticks in *.
      cbn [journal]. rewrite count_ticks_app, Hq. cbn. lia. }
  destruct Hf as (l & w1 & Hf & Ht1).
  pose proof (rounds_quiet E l w1) as Hr.
  destruct (rounds E l w1) as [[[]|e] w2] eqn:Hrounds; cbn [snd] in Hr.
  - left. exists (World (players w2) (durable w2) (journal w2 ++ [Ticked]) (draws w2)).
    split.
    + unfold tick. rewrite (bind_run _ _ _ _ _ Hf), (bind_run _ _ _ _ _ Hrounds). reflexivity.
    + cbn [journal]. split; [|apply last_snoc].
      unfold ticks in *. cbn [journal]. rewrite count_ticks_app. cbn. lia.
  - right. exists e, w2. split; [|congruence].
    unfold tick. rewrite (bind_run _ _ _ _ _ Hf), (bind_throw _ _ _ _ _ Hrounds). reflexivity.
Qed.

(** ** What the enumeration leaves behind *)

Lemma _getProfile_bare E i w :
  exists p, _getProfile E i w = (Ret p, w) /\ bare p.
Proof.
  unfold _getProfile, bind.
  match goal with |- context [_GET ?p w] => destruct (_GET_reads p w) as [r ->] end.
  unfold ret. eexists. split; [reflexivity|]. split; [reflexivity|]. split; [reflexivity|].
  cbn [experience]. match goal with |- context [num_or ?x _] =>
    destruct (num_or_zero_finite x) as [q ->] end. eauto.
Qed.

Section Settled.

Context (E : env).

Lemma settled_refl w : settled w w.
Proof. intros k. left. reflexivity. Qed.

Lemma settled_trans w1 w2 w3 : settled w1 w2 -> settled w2 w3 -> settled w1 w3.
Proof.
  intros H12 H23 k. destruct (H23 k) as [Heq|Hb]; [|right; exact Hb].
  rewrite Heq. apply H12.
Qed.

Lemma settled_same_players w w' : players w' = players w -> settled w w'.
Proof. intros H k. left. rewrite H. reflexivity. Qed.

Lemma settled_insert w w' key p :
  bare p -> players w' = <[key := p]> (players w) -> settled w w'.
Proof.
  intros Hb H k. rewrite H. destruct (decide (key = k)) as [->|Hne].
  - right. exists p. split; [apply lookup_insert_eq|exact Hb].
  - left. apply lookup_insert_ne. exact Hne.
Qed.

Lemma _registerPlayer_settles p w :
  bare p ->
  exists r w', _registerPlayer p w = (Ret r, w') /\ settled w w' /\
               (forall s, r = Some s -> s = p).
Proof.
  intros Hb. destruct (id p) as [[|a r]|] eqn:Hid.
  - unfold _registerPlayer. rewrite Hid. cbn. eexists _, _. split; [reflexivity|].
    split; [apply settled_same_players; reflexivity|]. discriminate.
  - rewrite (_registerPlayer_stores p a r w Hid). eexists _, _. split; [reflexivity|].
    split; [eapply settled_insert; [exact Hb|reflexivity]|]. congruence.
  - unfold _registerPlayer. rewrite Hid. cbn. eexists _, _. split; [reflexivity|].
    split; [apply settled_same_players; reflexivity|]. discriminate.
Qed.

Lemma members_loop_settles name s ms : forall acc w,
  Forall bare acc ->
  exists r w', members_loop E name s ms acc w = (Ret r, w') /\
               settled w w' /\ (forall l, r = Some l -> Forall bare l).
Proof.
  induction ms as [|m ms IH]; intros acc w Hacc.
  - cbn. eexists _, _. split; [reflexivity|]. split; [apply settled_refl|]. congruence.
  - cbn [members_loop]. destruct (String.eqb m (agent_id s)).
    + cbn. eexists _, _. split; [reflexivity|]. split; [apply settled_refl|]. discriminate.
    + unfold bind at 1. unfold catch at 1. unfold bind at 1.
      destruct (_getProfile_bare E (join "/" [name; "users"; m]) w) as (p & -> & Hb).
      cbn [ret]. unfold bind at 1. unfold catch at 1.
      destruct (_registerPlayer_settles p w Hb) as (r & w1 & -> & Hs1 & Hr).
      destruct r as [stored|].
      * rewrite (Hr stored eq_refl). unfold bind at 1.
        assert (Hseen : forall seen, bare (set_presence seen p)) by (intros; exact Hb).
        destruct (_getPresence s m) as [v|]; cbn [ret error emit bind];
          unfold bind at 1; destruct (shared E); cbn [ret];
          match goal with |- context [members_loop E name s ms ?a ?w0] =>
            destruct (IH a w0) as (r & w' & -> & Hs & Hl);
              [apply Forall_app; split; [exact Hacc|repeat constructor; apply Hseen]|]
          end;
          eexists _, _; (split; [reflexivity|]); (split; [|exact Hl]);
          (eapply settled_trans; [exact Hs1|]); (eapply settled_trans; [|exact Hs]);
          first [ eapply settled_insert; [apply Hseen|reflexivity]
                | apply settled_same_players; reflexivity ].
      * destruct (IH acc w1 Hacc) as (r & w' & -> & Hs & Hl).
        eexists _, _; (split; [reflexivity|]). split; [|exact Hl].
        eapply settled_trans; eassumption.
Qed.

Lemma channels_loop_settles name s chans : forall acc w,
  Forall bare acc ->
  exists r w', channels_loop E name s chans acc w = (Ret r, w') /\
               settled w w' /\ (forall l, r = Some l -> Forall bare l).
Proof.
  induction chans as [|c chans IH]; intros acc w Hacc.
  - cbn. eexists _, _. split; [reflexivity|]. split; [apply settled_refl|]. congruence.
  - cbn [channels_loop]. unfold bind at 1.
    set (members := match _getMembers s c with Some ms => ret ms | None => ret [] end).
    assert (Hm : members w = (Ret (default [] (_getMembers s c)), w)).
    { subst members. destruct (_getMembers s c); reflexivity. }
    rewrite Hm. unfold bind at 1.
    destruct (members_loop_settles name s (default [] (_getMembers s c)) acc w Hacc)
      as (r & w1 & -> & Hs1 & Hl1).
    destruct r as [acc'|].
    + destruct (IH acc' w1 (Hl1 _ eq_refl)) as (r & w' & -> & Hs & Hl).
      eexists _, _. split; [reflexivity|]. split; [|exact Hl].
      eapply settled_trans; eassumption.
    + cbn. eexists _, _. split; [reflexivity|]. split; [exact Hs1|]. discriminate.
Qed.

Lemma services_loop_settles ss : forall acc w,
  Forall bare acc ->
  exists r w', services_loop E ss acc w = (Ret r, w') /\
               settled w w' /\ (forall l, r = Some l -> Forall bare l).
Proof.
  induction ss as [|[name s] ss IH]; intros acc w Hacc.
  - cbn. eexists _, _. split; [reflexivity|]. split; [apply settled_refl|]. congruence.
  - cbn [services_loop]. unfold bind at 1.
    destruct (channels_loop_settles name s (channels E) acc w Hacc)
      as (r & w1 & -> & Hs1 & Hl1).
    destruct r as [acc'|].
    + destruct (IH acc' w1 (Hl1 _ eq_refl)) as (r & w' & -> & Hs & Hl).
      eexists _, _. split; [reflexivity|]. split; [|exact Hl].
      eapply settled_trans; eassumption.
    + cbn. eexists _, _. split; [reflexivity|]. split; [exact Hs1|]. discriminate.
Qed.

(** X14. The exclusion by alias in [_getActivePlayers] never removes
    anybody: the players [_getPlayers] lists carry no alias (and no
    cooldown), so the active players are exactly the listed players whose
    presence, as the service reported it, is [online]. *)
Theorem active_players_are_the_online_listed (w : world) (l : list profile) (w' : world) :
  _getPlayers E w = (Ret (Some l), w') ->
  Forall (fun p => alias p = None /\ cooldown p = None) l /\
  _getActivePlayers E w = (Ret (filter (fun x => presence x = Some "online") l), w').
Proof.
  intros Hg.
  destruct (services_loop_settles (services E) [] w (Forall_nil_2 _)) as (r & w1 & Hr & _ & Hl).
  unfold _getPlayers in Hg. rewrite Hg in Hr. injection Hr as <- <-.
  specialize (Hl l eq_refl). split.
  - eapply Forall_impl; [exact Hl|]. intros p (Hc & Ha & _). split; assumption.
  - unfold _getActivePlayers. rewrite (bind_run _ _ _ _ _ Hg). unfold ret. f_equal. f_equal.
    assert (Hon : Forall bare (filter (fun x => presence x = Some "online") l)).
    { apply Forall_forall. intros p Hp. apply list_elem_of_filter in Hp as [_ Hp].
      rewrite Forall_forall in Hl. apply Hl, Hp. }
    induction (filter (fun x => presence x = Some "online") l) as [|p ps IH]; [reflexivity|].
    inversion Hon as [|? ? (_ & Ha & _) Hps]; subst.
    rewrite filter_cons_True by (rewrite Ha; discriminate). f_equal. apply IH, Hps.
Qed.

(** X15. The enumeration rewrites the store with hydrated profiles: every
    entry it leaves changed holds a profile without cooldown, so a
    cooldown set by a penalty does not survive the next enumeration of
    its player. *)
Theorem enumeration_leaves_no_cooldown (w : world) (k : string) :
  let w' := snd (_getPlayers E w) in
  players w' !! k = players w !! k \/
  exists p, players w' !! k = Some p /\ cooldown p = None.
Proof.
  intros w'. subst w'.
  destruct (services_loop_settles (services E) [] w (Forall_nil_2 _)) as (r & w1 & Hr & Hs & _).
  unfold _getPlayers. rewrite Hr. cbn [snd].
  destruct (Hs k) as [H|(p & Hp & Hc & _)]; [left; exact H|right; eauto].
Qed.

End Settled.

(** ** Nothing monitored *)

Lemma announcement_without_channels E text : channels E = [] -> announcement E text = [].
Proof.
  intros H. unfold announcement. rewrite H.
  induction (services E) as [|s ss IH]; [reflexivity|exact IH].
Qed.

Lemma services_loop_without_channels E ss acc w :
  channels E = [] -> services_loop E ss acc w = (Ret (Some acc), w).
Proof.
  intros H. induction ss as [|[name s] ss IH]; [reflexivity|].
  cbn [services_loop]. rewrite H. cbn [channels_loop]. unfold bind, ret. exact IH.
Qed.

(** X16. As long as no channel is monitored (the list starts empty and
    only a service getting ready extends it), the engine lists nobody,
    every announcement is dropped, and a tick does nothing but emit its
    signal. *)
Theorem nothing_monitored (E : env) (text : notice) (w : world) :
  channels E = [] ->
  _getPlayers E w = (Ret (Some []), w) /\
  announce E text w = (Ret tt, w) /\
  tick E w = (Ret tt, World (players w) (durable w) (journal w ++ [Ticked]) (draws w)).
Proof.
  intros H.
  assert (Hg : _getPlayers E w = (Ret (Some []), w))
    by (apply services_loop_without_channels; exact H).
  split; [exact Hg|]. split.
  - unfold announce, emit_all. rewrite (announcement_without_channels E text H), app_nil_r.
    destruct w; reflexivity.
  - unfold tick, catch, _getActivePlayers. unfold bind at 1 2. rewrite Hg. reflexivity.
Qed.

(** ** The leaderboard *)

Lemma insert_ranked_perm x l : Permutation (insert_ranked x l) (x :: l).
Proof.
  induction l as [|y l IH]; [reflexivity|]. cbn [insert_ranked].
  destruct (goes_behind x y); [|reflexivity].
  rewrite IH. apply perm_swap.
Qed.

Lemma sort_by_experience_perm l : Permutation (sort_by_experience l) l.
Proof.
  induction l as [|x l IH]; [reflexivity|]. cbn [sort_by_experience fold_right].
  rewrite insert_ranked_perm. constructor. exact IH.
Qed.

Lemma goes_behind_spec a b :
  (exists q, experience a = Some (Fin q)) -> (exists q, experience b = Some (Fin q)) ->
  if goes_behind a b then outranks b a else outranks a b.
Proof.
  intros [qa Ha] [qb Hb]. unfold goes_behind, outranks, experience_points.
  rewrite Ha, Hb. cbn [to_number nsub ngt nlt of_Z].
  change (inject_Z 0) with 0%Q.
  destruct (Qle_bool (Qred (qb - qa)) 0) eqn:Hle; cbn [negb].
  - apply Qle_bool_iff in Hle. rewrite Qred_correct in Hle. lra.
  - assert (H : ~ (Qred (qb - qa) <= 0)%Q).
    { intros H. apply Qle_bool_iff in H. congruence. }
    rewrite Qred_correct in H. lra.
Qed.

Lemma outranks_trans a b c : outranks a b -> outranks b c -> outranks a c.
Proof. unfold outranks. intros. lra. Qed.

Lemma insert_ranked_sorted x l :
  (exists q, experience x = Some (Fin q)) ->
  Forall (fun p => exists q, experience p = Some (Fin q)) l ->
  StronglySorted outranks l -> StronglySorted outranks (insert_ranked x l).
Proof.
  intros Hx Hl Hs. induction Hs as [|y l Hs IH Hy]; cbn [insert_ranked].
  - repeat constructor.
  - inversion Hl as [|? ? Hfy Hfl]; subst.
    pose proof (goes_behind_spec x y Hx Hfy) as Hxy.
    destruct (goes_behind x y).
    + constructor; [apply IH; exact Hfl|].
      rewrite (insert_ranked_perm x l). constructor; assumption.
    + constructor; [constructor; assumption|].
      constructor; [exact Hxy|].
      eapply Forall_impl; [exact Hy|]. intros z Hz. eapply outranks_trans; eassumption.
Qed.

Lemma sort_by_experience_sorted l :
  Forall (fun p => exists q, experience p = Some (Fin q)) l ->
  StronglySorted outranks (sort_by_experience l).
Proof.
  induction 1 as [|x l Hx Hl IH]; [constructor|].
  cbn [sort_by_experience fold_right]. apply insert_ranked_sorted; [exact Hx| |exact IH].
  rewrite sort_by_experience_perm. exact Hl.
Qed.

(** X17. The leaderboard ranks the listed players by experience, highest
    first, losing and inventing none, and shows at most the first ten; the
    list is then put to [/leaderboard].  The ranking holds whatever the
    store held, the experience of a listed player being a number by
    hydration. *)
Theorem leaderboard_ranks_by_experience (E : env) (w : world) (l : list profile) (w' : world) :
  _getPlayers E w = (Ret (Some l), w') ->
  exists ranked,
    Permutation ranked l /\
    StronglySorted outranks ranked /\
    _handleLeaderboardRequest E w =
      (Ret (Leaderboard (take 10 (map (fun x => (name x, experience x)) ranked))),
       World (players w') (durable w') (journal w' ++ [Put "/leaderboard"]) (draws w')) /\
    (length (take 10 (map (fun x => (name x, experience x)) ranked)) <= 10)%nat.
Proof.
  intros Hg. exists (sort_by_experience l).
  split; [apply sort_by_experience_perm|]. split.
  - apply sort_by_experience_sorted.
    destruct (services_loop_settles E (services E) [] w (Forall_nil_2 _)) as (r & w1 & Hr & _ & Hl).
    unfold _getPlayers in Hg. rewrite Hg in Hr. injection Hr as <- <-.
    eapply Forall_impl; [exact (Hl l eq_refl)|]. intros p (_ & _ & Hq). exact Hq.
  - split.
    + unfold _handleLeaderboardRequest. rewrite (bind_run _ _ _ _ _ Hg). reflexivity.
    + rewrite length_take. lia.
Qed.

(** ** Queries *)

(** X18. The query handlers only read: whatever the message and the
    store, the world is afterwards exactly as it was.  For an actor that is
    a string the balance told is a number, never [NaN] and never missing,
    and the inventory told is the stored list, or the no-items answer when
    it is empty; any other actor makes them throw. *)
Theorem queries_only_read (E : env) (m : message) (w : world) :
  snd (_handlePlayRequest m w) = w /\
  snd (_handleProfileRequest E m w) = w /\
  snd (_handleInventoryRequest E m w) = w /\
  snd (_handleBalanceRequest E m w) = w /\
  (forall a, actor m = Str a ->
     (exists q, fst (_handleBalanceRequest E m w) = Ret (BalanceOf (Some (Fin q)))) /\
     (exists items, inventory (hydrated E a w) = Some items /\
        fst (_handleInventoryRequest E m w)
          = Ret (match items with [] => NoItems | _ => InventoryOf items end))) /\
  ((forall a, actor m <> Str a) ->
     fst (_handleBalanceRequest E m w) = Throw TypeError /\
     fst (_handleInventoryRequest E m w) = Throw TypeError /\
     fst (_handleProfileRequest E m w) = Throw TypeError).
Proof.
  unfold _handleProfileRequest, _handleInventoryRequest, _handleBalanceRequest,
    profile_of_actor.
  destruct (actor m) as [|a|b] eqn:Ha.
  - repeat split; try reflexivity; intros; try discriminate.
  - rewrite !(bind_run _ _ _ _ _ (hydrated_run E a w)).
    destruct (_getProfile_reads E a w) as (p & Hp & Hd & _).
    assert (Hh : hydrated E a w = p) by (unfold hydrated; rewrite Hp; reflexivity).
    rewrite Hh. destruct Hd as (_ & _ & _ & (x & Hx & Hnan) & _ & [items Hi] & _).
    split; [reflexivity|]. split.
    { destruct (effects (Entity E p)); [|reflexivity]. destruct (equipment p); reflexivity. }
    split.
    { rewrite Hi. destruct items; reflexivity. }
    split; [reflexivity|]. split.
    + intros a' Ha'. injection Ha' as <-. rewrite Hh. split.
      * destruct x as [|q]; [contradiction|]. exists q. cbn. rewrite Hx. reflexivity.
      * exists items. split; [exact Hi|]. rewrite Hi. destruct items; reflexivity.
    + intros Hno. exfalso. exact (Hno a eq_refl).
  - repeat split; try reflexivity; intros; try discriminate.
Qed.

(** ** Services getting ready *)

Lemma _handleServiceReady_joins joinable s cfg : forall st,
  (forall c, c ∈ cfg -> joinable c = None) ->
  _handleServiceReady joinable s cfg st =
    (Ret tt,
     Watch (monitored st ++ List.filter (reaches s) cfg)
           (joined st ++ List.filter (lacks_agent s) cfg)
           (complaints st ++ List.filter (fun c => negb (reaches s c)) cfg)).
Proof.
  unfold reaches, lacks_agent.
  induction cfg as [|c cfg IH]; intros st Hj.
  - cbn. rewrite !app_nil_r. destruct st; reflexivity.
  - cbn [_handleServiceReady List.filter].
    assert (Hj' : forall c', c' ∈ cfg -> joinable c' = None)
      by (intros c' Hc'; apply Hj; right; exact Hc').
    destruct (_getMembers s c) as [ms|].
    + cbn [negb]. destruct (bool_decide (agent_id s ∈ ms)); cbn [negb].
      * rewrite IH by exact Hj'. cbn [monitored joined complaints].
        rewrite <- !app_assoc. reflexivity.
      * rewrite (Hj c) by left. rewrite IH by exact Hj'. cbn [monitored joined complaints].
        rewrite <- !app_assoc. reflexivity.
    + cbn [negb]. rewrite IH by exact Hj'. cbn [monitored joined complaints].
      rewrite <- !app_assoc. reflexivity.
Qed.

(** X19. A service getting ready, when its joins resolve, adds to the
    monitored channels exactly the configured channels whose members it
    could fetch, in order and after those already there; it joins those
    among them where the agent is not yet a member, and logs a complaint
    for each of the others.  Whatever the joins do, also when one of them
    throws, the channels monitored before stay monitored, and what is
    added is taken, in order, from the channels it could fetch. *)
Theorem service_ready_monitors_reachable_channels
    (joinable : string -> option exn) (s : service) (cfg : list string) (st : watch) :
  (forall c, c ∈ cfg -> joinable c = None) ->
  _handleServiceReady joinable s cfg st =
    (Ret tt,
     Watch (monitored st ++ List.filter (reaches s) cfg)
           (joined st ++ List.filter (lacks_agent s) cfg)
           (complaints st ++ List.filter (fun c => negb (reaches s c)) cfg)) /\
  (forall joins st', exists more,
     monitored (snd (_handleServiceReady joins s cfg st')) = monitored st' ++ more /\
     sublist more (List.filter (reaches s) cfg)).
Proof.
  intros Hj. split; [apply _handleServiceReady_joins; exact Hj|].
  clear Hj. intros joins. unfold reaches.
  induction cfg as [|c cfg IH]; intros st'.
  - exists []. cbn. rewrite app_nil_r. split; [reflexivity|constructor].
  - cbn [_handleServiceReady List.filter]. destruct (_getMembers s c) as [ms|].
    + assert (Hgo : forall st1, monitored st1 = monitored st' ++ [c] ->
                exists more,
                  monitored (snd (_handleServiceReady joins s cfg st1))
                    = monitored st' ++ more /\
                  sublist more
                    (c :: List.filter
                            (fun c => match _getMembers s c with
                                      | Some _ => true
                                      | None => false
                                      end) cfg)).
      { intros st1 H1. destruct (IH st1) as (more & Hm & Hs).
        exists (c :: more). rewrite Hm, H1, <- app_assoc. split; [reflexivity|].
        apply sublist_skip, Hs. }
      destruct (bool_decide (agent_id s ∈ ms)); [apply Hgo; reflexivity|].
      destruct (joins c) as [e|]; [|apply Hgo; reflexivity].
      exists [c]. cbn [snd monitored]. split; [reflexivity|].
      apply sublist_skip, sublist_nil_l.
    + destruct (IH (Watch (monitored st') (joined st') (complaints st' ++ [c])))
        as (more & Hm & Hs).
      exists more. split; [exact Hm|exact Hs].
Qed.

Lemma filter_all_true {A : Type} (f : A -> bool) l :
  (forall x, x ∈ l -> f x = true) -> List.filter f l = l.
Proof.
  induction l as [|x l IH]; intros H; [reflexivity|]. cbn. rewrite (H x) by left.
  f_equal. apply IH. intros y Hy. apply H. right. exact Hy.
Qed.

Lemma all_ready_from joinable cfg (ss : list (string * service)) : forall st,
  (forall c, c ∈ cfg -> joinable c = None) ->
  (forall s c, s ∈ ss -> c ∈ cfg -> reaches (snd s) c = true) ->
  monitored (fold_left (fun (st : watch) (s : string * service) =>
               snd (_handleServiceReady joinable (snd s) cfg st)) ss st)
  = monitored st ++ mjoin (replicate (length ss) cfg).
Proof.
  induction ss as [|s ss IH]; intros st Hj Hr.
  - cbn. rewrite app_nil_r. reflexivity.
  - cbn [fold_left length replicate mjoin]. rewrite IH.
    + rewrite (_handleServiceReady_joins joinable (snd s) cfg st Hj). cbn [snd monitored].
      rewrite filter_all_true by (intros c Hc; apply Hr; [left|exact Hc]).
      change (mjoin (cfg :: replicate (length ss) cfg)) with (cfg ++ mjoin (replicate (length ss) cfg)).
      rewrite <- app_assoc. reflexivity.
    + exact Hj.
    + intros s' c Hs' Hc. apply Hr; [right; exact Hs'|exact Hc].
Qed.

Lemma length_announcement E text :
  length (announcement E text) = (length (services E) * length (channels E))%nat.
Proof.
  unfold announcement. induction (services E) as [|s ss IH]; [reflexivity|].
  cbn [flat_map length]. rewrite length_app, length_map, IH. reflexivity.
Qed.

Lemma length_mjoin_replicate {A : Type} n (l : list A) :
  length (mjoin (replicate n l)) = (n * length l)%nat.
Proof.
  induction n as [|n IH]; [reflexivity|].
  cbn [replicate]. change (mjoin (l :: replicate n l)) with (l ++ mjoin (replicate n l)).
  rewrite length_app, IH. reflexivity.
Qed.

(** X20. Every service that gets ready pushes the configured channels
    again: with [k] services that all reach the [c] configured channels,
    each channel is monitored [k] times, and an announcement is emitted
    [k * k * c] times, [k] times to every channel of every service. *)
Theorem every_service_monitors_again
    (joinable : string -> option exn) (E : env) (cfg : list string) (text : notice) :
  (forall c, c ∈ cfg -> joinable c = None) ->
  (forall s c, s ∈ services E -> c ∈ cfg -> reaches (snd s) c = true) ->
  channels E = monitored (all_ready joinable (services E) cfg) ->
  channels E = mjoin (replicate (length (services E)) cfg) /\
  length (announcement E text)
    = (length (services E) * (length (services E) * length cfg))%nat.
Proof.
  intros Hj Hr Hc.
  assert (Hm : channels E = mjoin (replicate (length (services E)) cfg)).
  { rewrite Hc. unfold all_ready. rewrite all_ready_from by assumption. reflexivity. }
  split; [exact Hm|]. rewrite length_announcement, Hm, length_mjoin_replicate. reflexivity.
Qed.

(** ** Channels, users and joins *)

Lemma keys_of_channel i : keys_of ("/channels/" ++ escape i)%string = ["channels"; i].
Proof.
  unfold keys_of.
  change ("/channels/" ++ escape i)%string
    with ("" ++ String "/" ("channels" ++ String "/" (escape i)))%string.
  rewrite !split_app by reflexivity. rewrite split_free by apply escape_free.
  cbn [map]. rewrite unescape_escape. reflexivity.
Qed.

Lemma keys_of_user i : keys_of ("/users/" ++ escape i)%string = ["users"; i].
Proof.
  unfold keys_of.
  change ("/users/" ++ escape i)%string
    with ("" ++ String "/" ("users" ++ String "/" (escape i)))%string.
  rewrite !split_app by reflexivity. rewrite split_free by apply escape_free.
  cbn [map]. rewrite unescape_escape. reflexivity.
Qed.

Lemma channel_id_of i :
  join "/" (if (length (split "/" i) =? 1)%nat then ["local"; "channels"; i] else split "/" i)
  = if free_of "/" i then ("local/channels/" ++ i)%string else i.
Proof.
  destruct (free_of "/" i) eqn:H.
  - rewrite (split_free _ _ H). reflexivity.
  - rewrite (slash_split_length _ H). apply join_split.
Qed.

Lemma _registerChannel_files i n r :
  i <> "" ->
  let cid := if free_of "/" i then ("local/channels/" ++ i)%string else i in
  let ch := Channel cid (str_or n cid) [] in
  _registerChannel (Entry (Some i) n) r =
    (Ret (Some ch),
     Realm (snd (commit (core r))) (users r) (<[cid := ch]> (channel_tree r))
           (users r) (<[cid := ch]> (channel_tree r)) (welcomes r)).
Proof.
  intros Hi cid ch. unfold _registerChannel. cbn [entry_id entry_name].
  destruct i as [|a s]; [contradiction|]. cbv zeta. rewrite channel_id_of.
  fold cid. fold ch. unfold rbind, put_at, get_at. rewrite keys_of_channel.
  cbn [String.eqb Ascii.eqb]. cbn. rewrite lookup_insert_eq. reflexivity.
Qed.

(** X21. Registering a channel with an id files it under its full id, a
    bare name going under [local/channels/], with the given name, or the
    full id for a missing or empty one, and with no members; everything is
    committed and the filed channel is returned.  Registering it again
    changes no tree: it is an upsert, and the members of a channel already
    filed are emptied by it. *)
Theorem registerChannel_files_the_channel (i : string) (n : option string) (r : realm) :
  i <> "" ->
  let cid := if free_of "/" i then ("local/channels/" ++ i)%string else i in
  let ch := Channel cid (str_or n cid) [] in
  let r' := snd (_registerChannel (Entry (Some i) n) r) in
  fst (_registerChannel (Entry (Some i) n) r) = Ret (Some ch) /\
  channel_tree r' = <[cid := ch]> (channel_tree r) /\
  saved_channels r' = channel_tree r' /\
  users r' = users r /\ players (core r') = players (core r) /\
  welcomes r' = welcomes r /\
  channel_tree (snd (_registerChannel (Entry (Some i) n) r')) = channel_tree r'.
Proof.
  intros Hi cid ch r'. subst r'.
  rewrite !(_registerChannel_files i n _ Hi). fold cid. fold ch. cbn.
  repeat split; try reflexivity. apply insert_insert_eq.
Qed.

Lemma canonical_idem i : canonical (canonical i) = canonical i.
Proof.
  destruct (free_of "/" i) eqn:H.
  - rewrite (canonical_free i H). apply canonical_slash. reflexivity.
  - rewrite (canonical_slash i H). apply canonical_slash. exact H.
Qed.

Lemma _getProfile_canonical E i : _getProfile E (canonical i) = _getProfile E i.
Proof.
  pose proof (canonical_idem i) as H. unfold canonical in H at 1. cbv zeta in H.
  unfold _getProfile. cbv zeta. rewrite H. reflexivity.
Qed.

Lemma hydrated_canonical E i w : hydrated E (canonical i) w = hydrated E i w.
Proof. unfold hydrated. rewrite _getProfile_canonical. reflexivity. Qed.

Lemma _registerUser_files E i n r :
  i <> "" -> n <> "" ->
  let p := hydrated E i (core r) in
  _registerUser E (Entry (Some i) (Some n)) r =
    (Ret (Some p),
     Realm (snd (commit (core r))) (<[canonical i := p]> (users r)) (channel_tree r)
           (<[canonical i := p]> (users r)) (channel_tree r) (welcomes r)).
Proof.
  intros Hi Hn p. unfold _registerUser. cbn [entry_id entry_name].
  destruct i as [|a s]; [contradiction|]. destruct n as [|b t]; [contradiction|].
  cbv zeta.
  change (join "/" (if (length (split "/" (String a s)) =? 1)%nat
                    then ["local"; "users"; String a s] else split "/" (String a s)))
    with (canonical (String a s)).
  unfold rbind, lift. rewrite hydrated_run, hydrated_canonical. fold p.
  unfold put_at, get_at. cbn [core users]. rewrite keys_of_user.
  cbn. rewrite lookup_insert_eq. reflexivity.
Qed.

(** X22. Registering a user that has an id and a name files, under the
    user's full id in [/users], the player profile hydrated for that id,
    commits, and returns it.  The name of the user is asked for but never
    used: two users of one id and different names leave the same realm;
    the players are not touched. *)
Theorem registerUser_files_the_player_profile
    (E : env) (i n n' : string) (r : realm) :
  i <> "" -> n <> "" -> n' <> "" ->
  let p := hydrated E i (core r) in
  let r' := snd (_registerUser E (Entry (Some i) (Some n)) r) in
  fst (_registerUser E (Entry (Some i) (Some n)) r) = Ret (Some p) /\
  users r' = <[canonical i := p]> (users r) /\
  saved_users r' = users r' /\
  players (core r') = players (core r) /\
  channel_tree r' = channel_tree r /\
  _registerUser E (Entry (Some i) (Some n')) r = _registerUser E (Entry (Some i) (Some n)) r.
Proof.
  intros Hi Hn Hn' p r'. subst r'.
  rewrite (_registerUser_files E i n r Hi Hn), (_registerUser_files E i n' r Hi Hn').
  fold p. cbn. repeat split; reflexivity.
Qed.

(** X23. A user or a channel that lacks what is asked of it is not filed:
    a user without id, or with an id and without name, and a channel
    without id, only log a failure; no tree changes and nothing is
    returned. *)
Theorem registration_needs_id_and_name (E : env) (i n : option string) (r : realm) :
  (i = None \/ i = Some "" \/ n = None \/ n = Some "") ->
  (exists what,
     _registerUser E (Entry i n) r =
       (Ret None,
        Realm (snd (error what (core r))) (users r) (channel_tree r) (saved_users r)
              (saved_channels r) (welcomes r))) /\
  ((i = None \/ i = Some "") ->
   exists what,
     _registerChannel (Entry i n) r =
       (Ret None,
        Realm (snd (error what (core r))) (users r) (channel_tree r) (saved_users r)
              (saved_channels r) (welcomes r))).
Proof.
  intros H. split.
  - unfold _registerUser. cbn [entry_id entry_name].
    destruct i as [[|a s]|]; try (eexists; reflexivity).
    destruct n as [[|b t]|]; try (eexists; reflexivity).
    destruct H as [H|[H|[H|H]]]; discriminate H.
  - intros [->| ->]; eexists; reflexivity.
Qed.

Lemma _registerChannel_returns c r :
  exists o r', _registerChannel c r = (Ret o, r') /\
    players (core r') = players (core r) /\ users r' = users r /\
    welcomes r' = welcomes r.
Proof.
  destruct c as [[[|a s]|] n].
  - eexists _, _. split; [reflexivity|]. repeat split.
  - assert (Hi : String a s <> "") by discriminate.
    rewrite (_registerChannel_files (String a s) n r Hi). eexists _, _.
    split; [reflexivity|]. repeat split.
  - eexists _, _. split; [reflexivity|]. repeat split.
Qed.

Lemma _handleJoin_watch E ch u r :
  _handleJoin E (Join ch u) r =
  rbind (_registerChannel (Entry (Some ch) (Some ch))) (fun _ =>
    if bool_decide (Exists (fun c => Some c = watched_piece ch) (channels E)) then
      rbind (lift (_registerPlayer (set_id (Some u) no_profile))) (fun player =>
      _welcomePlayer E player)
    else fun r => (Ret tt, r)) r.
Proof. reflexivity. Qed.

(** X24. A join in a channel that is not monitored registers the channel
    and nothing else: no player is filed, nobody is welcomed, the users
    stay as they were. *)
Theorem join_elsewhere_registers_nobody (E : env) (ch u : string) (r : realm) :
  (forall c, watched_piece ch = Some c -> c ∉ channels E) ->
  exists r',
    _handleJoin E (Join ch u) r = (Ret tt, r') /\
    players (core r') = players (core r) /\
    users r' = users r /\
    welcomes r' = welcomes r /\
    channel_tree r' = channel_tree (snd (_registerChannel (Entry (Some ch) (Some ch)) r)).
Proof.
  intros Hw. rewrite _handleJoin_watch. unfold rbind.
  destruct (_registerChannel_returns (Entry (Some ch) (Some ch)) r)
    as (o & r1 & Hr & Hp & Hu & Hwl).
  rewrite Hr. rewrite bool_decide_eq_false_2.
  - exists r1. cbn [snd]. repeat split; assumption.
  - intros Hex. apply Exists_exists in Hex. destruct Hex as (c & Hc & Heq).
    apply (Hw c); [symmetry; exact Heq|exact Hc].
Qed.

(** X25. A join in a monitored channel files the user anew: under the
    registry id of a three-piece user id the store afterwards holds the
    id alone, so the wealth, the experience and the name the player had
    are gone, and the welcome that follows, sent to every monitored
    channel of every service, names nobody. *)
Theorem join_resets_the_player
    (E : env) (ch c s k n : string) (r : realm) :
  watched_piece ch = Some c -> c ∈ channels E ->
  free_of "/" s = true -> free_of "/" k = true -> free_of "/" n = true ->
  let u := (s ++ "/" ++ k ++ "/" ++ n)%string in
  exists r',
    _handleJoin E (Join ch u) r = (Ret tt, r') /\
    players (core r') =
      <[(s ++ "/users/" ++ n)%string := set_id (Some u) no_profile]> (players (core r)) /\
    durable (core r') = players (core r') /\
    (forall p, players (core r') !! (s ++ "/users/" ++ n)%string = Some p ->
       wealth p = None /\ experience p = None /\ name p = None) /\
    welcomes r' =
      welcomes r ++
      flat_map (fun sv => map (fun c => (join "/" [fst sv; "channels"; c], None))
                              (channels E)) (services E).
Proof.
  intros Hw Hc Hs Hk Hn u. rewrite _handleJoin_watch. unfold rbind at 1.
  destruct (_registerChannel_returns (Entry (Some ch) (Some ch)) r)
    as (o & r1 & Hr & Hp & Hu & Hwl).
  rewrite Hr. rewrite bool_decide_eq_true_2.
  2:{ apply Exists_exists. exists c. split; [exact Hc|symmetry; exact Hw]. }
  assert (Hid : exists a t, u = String a t).
  { subst u. destruct s as [|a t]; [|eexists _, _; reflexivity].
    eexists _, _. reflexivity. }
  destruct Hid as (a & t & Hu').
  unfold rbind, lift.
  rewrite (_registerPlayer_stores (set_id (Some u) no_profile) a t (core r1))
    by (rewrite <- Hu'; reflexivity).
  rewrite <- Hu'. subst u. rewrite registered_id_three by assumption.
  cbn [_welcomePlayer]. eexists. split; [reflexivity|].
  cbn [core players durable welcomes]. rewrite Hp, Hwl.
  split; [reflexivity|]. split; [reflexivity|]. split; [|reflexivity].
  intros p. rewrite lookup_insert_eq. intros [= <-]. repeat split.
Qed.

(** * Further instances *)

Lemma getProfile_reads_canonical_entry_witness :
  let w' := World (delete "local/users/bob" (players bank)) ∅ [Committed] 7 in
  players bank !! canonical "alice" = players w' !! canonical "alice" /\
  fst (_getProfile village "alice" bank) = fst (_getProfile village "alice" w') /\
  canonical "alice" = "local/users/alice".
Proof.
  intros w'. split; [vm_compute; reflexivity|].
  destruct (getProfile_reads_canonical_entry village "alice" bank w') as (H1 & _ & H3 & _);
    [vm_compute; reflexivity|].
  split; [exact H1|]. apply H3. reflexivity.
Defined.

Lemma registerPlayer_files_one_entry_witness :
  let carol := stored_player "local/users/carol" 5 None None in
  id carol = Some "local/users/carol" /\
  exists w', _registerPlayer carol bank = (Ret (Some carol), w') /\
             players w' !! "local/users/carol" = Some carol /\
             players w' !! "local/users/alice" = players bank !! "local/users/alice".
Proof.
  intros carol. split; [reflexivity|].
  destruct (registerPlayer_files_one_entry carol "local/users/carol" bank)
    as (w' & H1 & H2 & H3 & _); [reflexivity|discriminate|].
  exists w'. split; [exact H1|]. split; [exact H2|]. apply H3. discriminate.
Defined.

Lemma one_piece_id_is_lost_witness :
  let alice := stored_player "alice" 5 None None in
  let bob := stored_player "bob" 7 None None in
  let w1 := snd (_registerPlayer alice nobody) in
  let w2 := snd (_registerPlayer bob w1) in
  players w2 = <["local/users/[object Object]" := bob]> (players nobody) /\
  fst (_getProfile village "alice" w1) = fst (_getProfile village "alice" nobody).
Proof.
  intros alice bob w1 w2.
  pose proof (one_piece_id_is_lost village alice bob "alice" "bob" nobody
                eq_refl eq_refl) as H.
  cbv zeta in H.
  destruct H as (_ & H2 & H3 & _); try discriminate; try reflexivity.
  split; [exact H2|exact H3].
Defined.

Lemma registry_and_hydration_paths_witness :
  let alice := stored_player "local/users/alice" 5 None None in
  let ghost := stored_player "local/guests/alice" 5 None None in
  players (snd (_registerPlayer alice nobody)) !! canonical "local/users/alice" = Some alice /\
  players (snd (_registerPlayer ghost nobody)) !! canonical "local/guests/alice" = None.
Proof.
  intros alice ghost. split.
  - pose proof (registry_and_hydration_paths alice "local" "users" "alice" nobody
                  eq_refl eq_refl eq_refl eq_refl) as H.
    cbv zeta in H. destruct H as [H _]. apply H. reflexivity.
  - pose proof (registry_and_hydration_paths ghost "local" "guests" "alice" nobody
                  eq_refl eq_refl eq_refl eq_refl) as H.
    cbv zeta in H. destruct H as [_ H].
    refine (eq_trans (H _) _); [discriminate|vm_compute; reflexivity].
Defined.

Lemma penalize_needs_a_filed_player_witness :
  let zed := stored_player "local/users/zed" 10 None None in
  players bank !! "local/users/zed" = None /\
  penalize village zed bank = (Throw TypeError, bank) /\
  penalize village no_profile bank = (Throw TypeError, bank).
Proof.
  intros zed. split; [vm_compute; reflexivity|]. split.
  - apply (proj2 (penalize_needs_a_filed_player village zed bank) "local/users/zed");
      [reflexivity|vm_compute; reflexivity].
  - apply (proj1 (penalize_needs_a_filed_player village no_profile bank)). reflexivity.
Defined.

Lemma message_in_monitored_channel_witness :
  let said := MkMessage (Str "local/users/alice") (Str "hello") (Some "idlerpg") (Some "local") in
  "idlerpg" ∈ channels village /\
  wealth_of "local/users/alice" (snd (_handleMessage village said bank)) = Some (of_Z 50) /\
  cooldown_of "local/users/alice" (snd (_handleMessage village said bank)) = Some (of_Z 1000).
Proof.
  intros said.
  assert (Hin : "idlerpg" ∈ channels village) by left.
  split; [exact Hin|].
  destruct (message_in_monitored_channel village said "local/users/alice" "idlerpg"
              "local/users/alice" (stored_player "local/users/alice" 100 None None) bank)
    as [_ H];
    [reflexivity|reflexivity|vm_compute; reflexivity|vm_compute; reflexivity|].
  specialize (H Hin). cbv zeta in H. rewrite H. split; vm_compute; reflexivity.
Defined.

Lemma transfer_rejection_changes_nothing_witness :
  fst (_handleTransferRequest village
         (transfer_message "local/users/alice" "!transfer 130 bob") bank)
    = Ret (Shortfall (of_Z (-30))) /\
  snd (_handleTransferRequest village
         (transfer_message "local/users/alice" "!transfer 130 bob") bank) = bank.
Proof.
  split; [vm_compute; reflexivity|].
  apply (transfer_rejection_changes_nothing village
           (transfer_message "local/users/alice" "!transfer 130 bob") bank);
    intros H; vm_compute in H; discriminate H.
Defined.

Lemma transfer_refusal_truncates_witness :
  wealth (hydrated village "local/users/alice" purse) = Some (Fin (25 # 2)) /\
  _handleTransferRequest village
    (transfer_message "local/users/alice" "!transfer 14 bob") purse
    = (Ret (Shortfall (of_Z (-1))), purse) /\
  exists w',
    _handleTransferRequest village
      (transfer_message "local/users/alice" "!transfer 13 bob") purse
      = (Ret Transferred, w') /\
    wealth_of "local/users/alice" w' = Some (of_Z (-1)).
Proof.
  split; [vm_compute; reflexivity|]. split.
  - pose proof (transfer_refusal_truncates village purse
                  "local/users/alice" "!transfer 14 bob" "!transfer" "14" "bob" "local" None
                  "local/users/alice" "local/users/bob" (25 # 2) 25 14) as H.
    cbv zeta in H.
    repeat match type of H with
           | ?P -> _ =>
               let h := fresh in
               assert (h : P)
                 by first [lia | discriminate | reflexivity | (vm_compute; reflexivity)
                          | (vm_compute; congruence)];
               specialize (H h); clear h
           end.
    destruct H as [H _]. destruct H as [H _]; [lia|]. exact H.
  - pose proof (transfer_refusal_truncates village purse
                  "local/users/alice" "!transfer 13 bob" "!transfer" "13" "bob" "local" None
                  "local/users/alice" "local/users/bob" (25 # 2) 25 13) as H.
    cbv zeta in H.
    repeat match type of H with
           | ?P -> _ =>
               let h := fresh in
               assert (h : P)
                 by first [lia | discriminate | reflexivity | (vm_compute; reflexivity)
                          | (vm_compute; congruence)];
               specialize (H h); clear h
           end.
    destruct H as (_ & H & _). destruct H as (r & w' & Hr & _ & Hw); [lia|].
    exists w'. split.
    + unfold transfer_message. rewrite Hr. f_equal. f_equal.
      assert (Hc : fst (_handleTransferRequest village
                          (transfer_message "local/users/alice" "!transfer 13 bob") purse)
                   = Ret Transferred) by (vm_compute; reflexivity).
      unfold transfer_message in Hc. rewrite Hr in Hc. cbn [fst] in Hc. congruence.
    + apply Hw; first [discriminate | (vm_compute; reflexivity) | (vm_compute; congruence)].
Defined.


Lemma reward_leaves_numbers_witness :
  let alice := stored_player "local/users/alice" 100 None (Some "online") in
  id (after_encounter village alice bank) = Some "local/users/alice" /\
  exists p' w' qw, reward village alice bank = (Ret p', w') /\ wealth p' = Some (Fin qw) /\
                   players w' !! "local/users/alice" = Some p'.
Proof.
  intros alice. split; [reflexivity|].
  destruct (reward_leaves_numbers village alice bank "local/users/alice")
    as (p' & w' & qw & qx & H1 & H2 & _ & _ & H5 & _); [reflexivity|].
  exists p', w', qw. split; [exact H1|]. split; [exact H2|].
  rewrite H5. apply lookup_insert_eq.
Defined.

Lemma reward_without_id_writes_nothing_witness :
  id (after_encounter village no_profile bank) = None /\
  exists w', reward village no_profile bank = (Throw TypeError, w') /\
             players w' = players bank.
Proof.
  split; [reflexivity|].
  destruct (reward_without_id_writes_nothing village no_profile bank) as (w' & H1 & H2 & _);
    [reflexivity|].
  exists w'. split; [exact H1|exact H2].
Defined.

Lemma round_of_absent_player_is_idle_witness :
  let alice := stored_player "local/users/alice" 100 None None in
  presence (hydrated village "local/users/alice" bank) = Some "offline" /\
  _computeRound village alice bank
    = (Ret (Some (hydrated village "local/users/alice" bank)), bank).
Proof.
  intros alice. split; [vm_compute; reflexivity|].
  apply (round_of_absent_player_is_idle village alice "local/users/alice" bank);
    [reflexivity|]. intros H. vm_compute in H. discriminate H.
Defined.

Lemma active_players_are_the_online_listed_witness :
  exists l w',
    _getPlayers village nobody = (Ret (Some l), w') /\
    length l = 2%nat /\
    _getActivePlayers village nobody
      = (Ret (filter (fun x => presence x = Some "online") l), w').
Proof.
  destruct (_getPlayers village nobody) as [[[l|]|e] w'] eqn:H;
    try (vm_compute in H; discriminate H).
  exists l, w'. split; [reflexivity|]. split.
  - vm_compute in H. injection H as <- _. reflexivity.
  - apply (active_players_are_the_online_listed village nobody l w' H).
Defined.

Lemma nothing_monitored_witness :
  channels unmonitored = [] /\
  _getPlayers unmonitored bank = (Ret (Some []), bank) /\
  announce unmonitored (PeaceDisrupted None) bank = (Ret tt, bank) /\
  ticks (snd (tick unmonitored bank)) = 1%nat.
Proof.
  split; [reflexivity|].
  destruct (nothing_monitored unmonitored (PeaceDisrupted None) bank) as (H1 & H2 & H3);
    [reflexivity|].
  split; [exact H1|]. split; [exact H2|]. rewrite H3. reflexivity.
Defined.

Lemma leaderboard_ranks_by_experience_witness :
  exists l w' board w'',
    _getPlayers village nobody = (Ret (Some l), w') /\
    _handleLeaderboardRequest village nobody = (Ret (Leaderboard board), w'') /\
    (length board <= 10)%nat.
Proof.
  destruct (_getPlayers village nobody) as [[[l|]|e] w'] eqn:H;
    try (vm_compute in H; discriminate H).
  destruct (leaderboard_ranks_by_experience village nobody l w' H)
    as (ranked & _ & _ & H3 & H4).
  exists l, w'. eexists _, _. split; [reflexivity|]. split; [exact H3|exact H4].
Defined.

Lemma service_ready_monitors_reachable_channels_witness :
  _handleServiceReady (fun _ => None) chat ["idlerpg"; "tavern"] (Watch [] [] [])
  = (Ret tt, Watch ["idlerpg"] ["idlerpg"] ["tavern"]).
Proof.
  destruct (service_ready_monitors_reachable_channels (fun _ => None) chat
              ["idlerpg"; "tavern"] (Watch [] [] [])) as [H _];
    [intros; reflexivity|].
  rewrite H. vm_compute. reflexivity.
Defined.

Lemma every_service_monitors_again_witness :
  channels crowded = monitored (all_ready (fun _ => None) (services crowded) ["idlerpg"]) /\
  length (announcement crowded (PeaceDisrupted None)) = 4%nat.
Proof.
  assert (H0 : channels crowded
               = monitored (all_ready (fun _ => None) (services crowded) ["idlerpg"]))
    by (vm_compute; reflexivity).
  split; [exact H0|].
  destruct (every_service_monitors_again (fun _ => None) crowded ["idlerpg"]
              (PeaceDisrupted None)) as [_ H].
  - intros; reflexivity.
  - intros s c Hs Hc. apply list_elem_of_singleton in Hc. subst c.
    cbn in Hs. apply elem_of_cons in Hs. destruct Hs as [->|Hs]; [reflexivity|].
    apply list_elem_of_singleton in Hs. subst s. reflexivity.
  - exact H0.
  - rewrite H. reflexivity.
Defined.

Lemma registerChannel_files_the_channel_witness :
  let r' := snd (_registerChannel (Entry (Some "idlerpg") None) (realm_of nobody)) in
  fst (_registerChannel (Entry (Some "idlerpg") None) (realm_of nobody))
    = Ret (Some (Channel "local/channels/idlerpg" "local/channels/idlerpg" [])) /\
  channel_tree (snd (_registerChannel (Entry (Some "idlerpg") None) r')) = channel_tree r'.
Proof.
  intros r'.
  pose proof (registerChannel_files_the_channel "idlerpg" None (realm_of nobody)) as H.
  cbv zeta in H. destruct H as (H1 & _ & _ & _ & _ & _ & H7); [discriminate|].
  split; [exact H1|exact H7].
Defined.

Lemma registerUser_files_the_player_profile_witness :
  fst (_registerUser village (Entry (Some "alice") (Some "Alice")) (realm_of bank))
    = Ret (Some (hydrated village "alice" bank)) /\
  _registerUser village (Entry (Some "alice") (Some "Al")) (realm_of bank)
    = _registerUser village (Entry (Some "alice") (Some "Alice")) (realm_of bank).
Proof.
  pose proof (registerUser_files_the_player_profile village "alice" "Alice" "Al"
                (realm_of bank)) as H.
  cbv zeta in H. destruct H as (H1 & _ & _ & _ & _ & H6); try discriminate.
  split; [exact H1|exact H6].
Defined.

Lemma registration_needs_id_and_name_witness :
  fst (_registerUser village (Entry (Some "alice") None) (realm_of nobody)) = Ret None /\
  users (snd (_registerUser village (Entry (Some "alice") None) (realm_of nobody))) = ∅.
Proof.
  destruct (registration_needs_id_and_name village (Some "alice") None (realm_of nobody))
    as [[what H] _]; [right; right; left; reflexivity|].
  rewrite H. split; reflexivity.
Defined.

Lemma join_elsewhere_registers_nobody_witness :
  watched_piece "tavern" = Some "tavern" /\
  exists r',
    _handleJoin village (Join "tavern" "local/users/alice") (realm_of bank) = (Ret tt, r') /\
    players (core r') = players bank /\ welcomes r' = [].
Proof.
  split; [reflexivity|].
  destruct (join_elsewhere_registers_nobody village "tavern" "local/users/alice"
              (realm_of bank)) as (r' & H1 & H2 & _ & H4 & _).
  - intros c Hc Hin. vm_compute in Hc. injection Hc as <-.
    apply list_elem_of_singleton in Hin. discriminate Hin.
  - exists r'. split; [exact H1|]. split; [exact H2|exact H4].
Defined.

Lemma join_resets_the_player_witness :
  wealth_of "local/users/alice" bank = Some (of_Z 100) /\
  exists r',
    _handleJoin village (Join "idlerpg" "local/users/alice") (realm_of bank) = (Ret tt, r') /\
    wealth_of "local/users/alice" (core r') = None /\
    welcomes r' = [("local/channels/idlerpg", None)].
Proof.
  split; [vm_compute; reflexivity|].
  pose proof (join_resets_the_player village "idlerpg" "idlerpg" "local" "users" "alice"
                (realm_of bank) eq_refl) as H.
  cbv zeta in H.
  destruct H as (r' & H1 & H2 & _ & _ & H5); try reflexivity; [left|].
  exists r'. split; [exact H1|]. split.
  - unfold wealth_of. rewrite H2, lookup_insert_eq. reflexivity.
  - rewrite H5. reflexivity.
Defined.

(** ** The lists of members *)

(** X26. The two lists of names are read off one enumeration: the
    memberlist names every listed player, in the order of the enumeration,
    the online list names some of them in the same order, and both leave
    the world as the enumeration left it. *)
Theorem online_members_among_the_memberlist
    (E : env) (w : world) (l : list profile) (w' : world) :
  _getPlayers E w = (Ret (Some l), w') ->
  exists online,
    _handleOnlineRequest E w = (Ret (OnlineMembers online), w') /\
    _handleMemberlistRequest E w = (Ret (Memberlist (map name l)), w') /\
    sublist online (map name l).
Proof.
  intros Hg. unfold _handleOnlineRequest, _handleMemberlistRequest, _getActivePlayers.
  rewrite bind_assoc, !(bind_run _ _ _ _ _ Hg). unfold bind, ret.
  eexists. split; [reflexivity|]. split; [reflexivity|].
  apply (fmap_sublist name). etransitivity; apply sublist_filter.
Qed.

Lemma online_members_among_the_memberlist_witness :
  exists l w' online,
    _getPlayers village nobody = (Ret (Some l), w') /\
    _handleOnlineRequest village nobody = (Ret (OnlineMembers online), w') /\
    _handleMemberlistRequest village nobody = (Ret (Memberlist (map name l)), w').
Proof.
  destruct (_getPlayers village nobody) as [[[l|]|e] w'] eqn:H;
    try (vm_compute in H; discriminate H).
  destruct (online_members_among_the_memberlist village nobody l w' H)
    as (online & H1 & H2 & _).
  exists l, w', online. split; [reflexivity|]. split; [exact H1|exact H2].
Defined.
